(** * isis2mongo: PID derivation, record normalisation and reconciliation

    A shallow embedding of [isis2mongo/isis2mongo.py].  Python dictionaries
    are finite maps with string keys, Python exceptions are an explicit error
    result, an in-place update of a record is explicit state passing, and the
    calls made to the collaborators (the ISIS record source, the legacy data
    broker, the remote catalog client, the logger) are an event trace
    answered by an oracle. *)

From Stdlib Require Import NArith Ascii String DecimalString.
From stdpp Require Import gmap strings list fin_maps.

Open Scope string_scope.
Open Scope list_scope.

(** ** Exceptions and results *)

(** The exception classes the module raises, catches or lets through.
    [Exception] stands for any other class raised by a collaborator. *)
Inductive exn :=
  | TypeError
  | IndexError
  | KeyError
  | ValueError
  | IOError
  | UnauthorizedAccess
  | ServerError
  | Exception (name : string).

Inductive result (A : Type) :=
  | Ok (a : A)
  | Raise (e : exn).
Arguments Ok {A} a.
Arguments Raise {A} e.

#[global] Instance result_bind : MBind result := λ A B k r,
  match r with
  | Ok a => k a
  | Raise e => Raise e
  end.
#[global] Instance result_ret : MRet result := λ A a, Ok a.

#[global] Instance exn_eq_dec : EqDecision exn.
Proof. solve_decision. Defined.
#[global] Instance result_eq_dec `{EqDecision A} : EqDecision (result A).
Proof. solve_decision. Defined.

(** ** Python strings *)

Module PyStr.

(** [s[a:b]] for [0 <= a <= b]: out-of-range bounds are clipped. *)
Definition slice (s : string) (a b : nat) : string :=
  String.substring a (b - a) s.

(** [s[a:]]. *)
Fixpoint slice_from (s : string) (a : nat) : string :=
  match a, s with
  | 0, _ => s
  | S a', String _ s' => slice_from s' a'
  | S _, EmptyString => EmptyString
  end.

Definition is_digit (c : ascii) : bool :=
  let n := nat_of_ascii c in ((48 <=? n) && (n <=? 57))%nat.

Fixpoint all_digits (s : string) : bool :=
  match s with
  | EmptyString => true
  | String c s' => is_digit c && all_digits s'
  end.

(** [str.isdigit()]: every character is a digit and there is at least
    one character. *)
Definition isdigit (s : string) : bool :=
  match s with
  | EmptyString => false
  | String _ _ => all_digits s
  end.

(** [re.compile(r'^[0-9]*').match(s).group()]: the pattern always
    matches, and the match is the longest run of digits at the start. *)
Fixpoint match_leading_digits (s : string) : string :=
  match s with
  | String c s' => if is_digit c then String c (match_leading_digits s') else EmptyString
  | EmptyString => EmptyString
  end.

Definition digit_value (c : ascii) : N := N.of_nat (nat_of_ascii c - 48).

Fixpoint int_acc (acc : N) (s : string) : N :=
  match s with
  | EmptyString => acc
  | String c s' => int_acc (10 * acc + digit_value c)%N s'
  end.

(** [int(s)] for a non-empty string of digits. *)
Definition int (s : string) : N := int_acc 0%N s.

Fixpoint zeros (n : nat) : string :=
  match n with
  | 0 => EmptyString
  | S n' => String "0" (zeros n')
  end.

(** [str(n)] for a natural number. *)
Definition str_of_int (n : N) : string := NilZero.string_of_uint (N.to_uint n).

(** ["%04d" % n] for [n >= 0]: the decimal digits, padded on the left with
    zeros up to a width of 4; a longer number is not cut. *)
Definition format_04d (n : N) : string :=
  let d := str_of_int n in zeros (4 - String.length d) +:+ d.

(** [s.replace(c, '')]. *)
Fixpoint remove_char (c : ascii) (s : string) : string :=
  match s with
  | EmptyString => EmptyString
  | String x s' =>
      if Ascii.eqb x c then remove_char c s' else String x (remove_char c s')
  end.

(** [s.split(c)]: never empty; the separator does not appear in the
    pieces. *)
Fixpoint split (c : ascii) (s : string) : list string :=
  match s with
  | EmptyString => [EmptyString]
  | String x s' =>
      if Ascii.eqb x c then EmptyString :: split c s'
      else match split c s' with
           | p :: ps => String x p :: ps
           | [] => [String x EmptyString]
           end
  end.

(** [sep.join(l)]. *)
Fixpoint join (sep : string) (l : list string) : string :=
  match l with
  | [] => EmptyString
  | [x] => x
  | x :: l' => x +:+ sep +:+ join sep l'
  end.

End PyStr.

(** Whether a string begins with a decimal digit. *)
Definition starts_with_digit (s : string) : bool :=
  match s with
  | String c _ => PyStr.is_digit c
  | EmptyString => false
  end.

(** ** Records *)

(** One occurrence of a field: subfield code to value; the primary value is
    under ["_"]. *)
Abbreviation occurrence := (gmap string string).

(** What a record holds under a key: the occurrences of an ISIS field, or
    one of the plain strings [prepare_record] stamps on the record. *)
Inductive pyval :=
  | POccs (occs : list occurrence)
  | PStr (s : string).

#[global] Instance pyval_eq_dec : EqDecision pyval.
Proof. solve_decision. Defined.

Abbreviation record := (gmap string pyval).

(** [value[0]['_']] on a stored value.  A field with no occurrence raises
    [IndexError], a first occurrence without ["_"] raises [KeyError]; on a
    plain string, [[0]] is its first character (or [IndexError] when it is
    empty) and [['_']] on that character raises [TypeError]. *)
Definition first_primary (v : pyval) : result string :=
  match v with
  | POccs [] => Raise IndexError
  | POccs (o :: _) =>
      match o !! "_" with
      | Some s => Ok s
      | None => Raise KeyError
      end
  | PStr EmptyString => Raise IndexError
  | PStr (String _ _) => Raise TypeError
  end.

(** [record.get(tag, [{'_': None}])[0]['_']]: [None] is Python's [None],
    which only the default produces. *)
Definition primary (r : record) (tag : string) : result (option string) :=
  match r !! tag with
  | None => Ok None
  | Some v => s ← first_primary v; Ok (Some s)
  end.

(** Subscripting or slicing [None] raises [TypeError]. *)
Definition subscriptable (v : option string) : result string :=
  match v with
  | Some s => Ok s
  | None => Raise TypeError
  end.

(** ** [issue_pid] *)

(** The body of the [try] block: the three values it binds. *)
Definition issue_pid_try (r : record) : result (option string * string * string) :=
  issn ← primary r "v35";
  v36 ← primary r "v36";
  s ← subscriptable v36;
  let publication_year := PyStr.slice s 0 4 in
  v36' ← primary r "v36";
  s' ← subscriptable v36';
  let matched := PyStr.match_leading_digits (PyStr.slice_from s' 4) in
  (* [.group() or 0]: the empty match is falsy *)
  let issue_order := if decide (matched = "") then 0%N else PyStr.int matched in
  let order := PyStr.format_04d issue_order in
  Ok (issn, publication_year, order).

(** [except TypeError: return None] covers the [try] block only; the
    concatenation comes after it, and [None + str] raises [TypeError]. *)
Definition issue_pid (r : record) : result (option string) :=
  match issue_pid_try r with
  | Raise TypeError => Ok None
  | Raise e => Raise e
  | Ok (issn, publication_year, order) =>
      match issn with
      | Some issn => Ok (Some (issn +:+ publication_year +:+ order))
      | None => Raise TypeError
      end
  end.

(** ** [prepare_record] *)

(** [[{'_': v}]]. *)
Definition field (v : string) : pyval := POccs [{[ "_" := v ]}].

(** [tuple(record)]: the keys of the record, each once. *)
Definition tuple_of (r : record) : list string := (map_to_list r).*1.

(** The renaming loop: [record['v'+tag] = record[tag]; del record[tag]] for
    every tag made of digits.  It works on the record in place, so it
    returns the record as it leaves it, also when it raises. *)
Fixpoint rename_tags (tags : list string) (r : record) : record * result unit :=
  match tags with
  | [] => (r, Ok ())
  | tag :: tags' =>
      if PyStr.isdigit tag then
        match r !! tag with
        | Some v => rename_tags tags' (delete tag (<["v" +:+ tag := v]> r))
        | None => (r, Raise KeyError)
        end
      else rename_tags tags' r
  end.

(** Python truthiness of [None] or a string. *)
Definition truthy (v : option string) : bool :=
  match v with
  | Some (String _ _) => true
  | _ => false
  end.

(** Line 114: [v880 or issue_pid(record) or v400]; [or] evaluates its right
    operand only when the left one is falsy, and yields the last operand
    evaluated. *)
Definition derive_pid (r : record) : result (option string) :=
  v880 ← primary r "v880";
  if truthy v880 then Ok v880 else
  ipid ← issue_pid r;
  if truthy ipid then Ok ipid else
  primary r "v400".

(** What the module uses of Python's [datetime]: [today] is
    [datetime.now().isoformat()[:10]], taken not to change while a scan
    runs, and [strptime_Ymd s] is
    [datetime.strptime(s, '%Y%m%d').isoformat()[:10]], [None] when
    [strptime] raises [ValueError]. *)
Record datetime := {
  today : string;
  strptime_Ymd : string → option string;
}.

(** Line 123: the [v91] value without its dashes, or today's date without
    them when that is empty. *)
Definition processing_date (dt : datetime) (r : record) : result string :=
  v91 ← match r !! "v91" with
        | None => Ok (today dt)
        | Some v => first_primary v
        end;
  let stripped := PyStr.remove_char "-" v91 in
  Ok (if decide (stripped = "") then PyStr.remove_char "-" (today dt) else stripped).

(** Lines 125-140: the four length tests, each on its own. *)
Definition decompose (pid : string) (r : record) : record :=
  let r := if decide (String.length pid = 9) then <["journal" := PStr pid]> r else r in
  let r := if decide (String.length pid = 17) then
             <["issue" := PStr pid]> (<["journal" := PStr (PyStr.slice pid 0 9)]> r)
           else r in
  let r := if decide (String.length pid = 23) then
             <["document" := PStr pid]>
               (<["issue" := PStr (PyStr.slice pid 1 18)]>
                  (<["journal" := PStr (PyStr.slice pid 1 10)]> r))
           else r in
  let r := if decide (String.length pid = 28) then
             <["document" := PStr (PyStr.slice pid 0 23)]>
               (<["issue" := PStr (PyStr.slice pid 1 18)]>
                  (<["journal" := PStr (PyStr.slice pid 1 10)]> r))
           else r in
  r.

(** Lines 119-122. *)
Definition stamp (collection pid : string) (r : record) : record :=
  <["v880" := field pid]>
    (<["code" := PStr pid]>
       (<["collection" := PStr collection]>
          (<["v992" := field collection]> r))).

(** Lines 116-142, with [pid] the value bound at line 114 and [r] the
    record at that point. *)
Definition finish_record (dt : datetime) (collection : string)
    (pid : option string) (r : record) : record * result (option record) :=
  if negb (truthy pid) then (r, Ok None) else
  let pid := default "" pid in
  let r2 := stamp collection pid r in
  match processing_date dt r2 with
  | Raise e => (r2, Raise e)
  | Ok d =>
      match strptime_Ymd dt d with
      | None => (r2, Raise ValueError)
      | Some iso =>
          let r3 := decompose pid (<["processing_date" := PStr iso]> r2) in
          (r3, Ok (Some r3))
      end
  end.

(** [prepare_record(collection, record)] updates [record] in place and
    returns it, returns [None], or raises.  The first component is the
    record object as the call leaves it, the second what the call returns
    or raises; a returned record is that same object. *)
Definition prepare_record (dt : datetime) (collection : string) (r : record)
    : record * result (option record) :=
  match rename_tags (tuple_of r) r with
  | (r1, Raise e) => (r1, Raise e)
  | (r1, Ok _) =>
      match derive_pid r1 with
      | Raise e => (r1, Raise e)
      | Ok pid => finish_record dt collection pid r1
      end
  end.

(** ** A model of [datetime.strptime(s, '%Y%m%d')]

    CPython turns the format into the regular expression
    [(\d\d\d\d)(1[0-2]|0[1-9]|[1-9])(3[01]|[12]\d|0[1-9]|[1-9]| [1-9])],
    matches it at the start of the string (alternatives in that order, with
    backtracking), refuses a string with characters left over, and then
    builds the date, which checks the year and the day of the month. *)

Module Strptime.

Definition digit (c : ascii) : option N :=
  if PyStr.is_digit c then Some (PyStr.digit_value c) else None.

Definition in_range (lo hi : N) (c : ascii) : option N :=
  d ← digit c; if ((lo <=? d) && (d <=? hi))%N then Some d else None.

(** Two characters, the first equal to [c1], the second a digit between
    [lo] and [hi]; the number they spell and the rest of the string. *)
Definition two (c1 : ascii) (lo hi : N) (s : string) : list (N * string) :=
  match s with
  | String a (String b rest) =>
      if Ascii.eqb a c1 then
        match in_range lo hi b with
        | Some d =>
            [((match digit a with Some t => 10 * t | None => 0 end + d)%N, rest)]
        | None => []
        end
      else []
  | _ => []
  end.

Definition one (lo hi : N) (s : string) : list (N * string) :=
  match s with
  | String a rest =>
      match in_range lo hi a with
      | Some d => [(d, rest)]
      | None => []
      end
  | _ => []
  end.

(** [1[0-2]|0[1-9]|[1-9]] *)
Definition months (s : string) : list (N * string) :=
  two "1" 0 2 s ++ two "0" 1 9 s ++ one 1 9 s.

(** [3[01]|[12]\d|0[1-9]|[1-9]| [1-9]] *)
Definition days (s : string) : list (N * string) :=
  two "3" 0 1 s ++ two "1" 0 9 s ++ two "2" 0 9 s ++ two "0" 1 9 s
    ++ one 1 9 s ++ two " " 1 9 s.

Definition year (s : string) : option (N * string) :=
  match s with
  | String a (String b (String c (String d rest))) =>
      if PyStr.all_digits (PyStr.slice s 0 4)
      then Some (PyStr.int (PyStr.slice s 0 4), rest) else None
  | _ => None
  end.

Definition leap (y : N) : bool :=
  ((y mod 4 =? 0) && (negb (y mod 100 =? 0) || (y mod 400 =? 0)))%N.

Definition days_in_month (y m : N) : N :=
  (if m =? 2 then (if leap y then 29 else 28)
   else if (m =? 4) || (m =? 6) || (m =? 9) || (m =? 11) then 30 else 31)%N.

Definition pad (width : nat) (n : N) : string :=
  let d := PyStr.str_of_int n in PyStr.zeros (width - String.length d) +:+ d.

(** [.isoformat()[:10]] of the parsed date; [None] for [ValueError]. *)
Definition parse_Ymd (s : string) : option string :=
  '(y, s1) ← year s;
  '(m, d, rest) ← head ('(m, s2) ← months s1; '(d, s3) ← days s2; [(m, d, s3)]);
  if decide (rest = "") then
    if ((1 <=? y) && (d <=? days_in_month y m))%N
    then Some (pad 4 y +:+ "-" +:+ pad 2 m +:+ "-" +:+ pad 2 d)
    else None
  else None.

End Strptime.

(** The date functions for a scan started on [date]. *)
Definition datetime_on (date : string) : datetime :=
  {| today := date; strptime_Ymd := Strptime.parse_Ymd |}.

(** ** Events *)

Inductive level := DEBUG | INFO | WARNING | ERROR.

Inductive entity := Document | Journal | Issue.

#[global] Instance level_eq_dec : EqDecision level.
Proof. solve_decision. Defined.
#[global] Instance entity_eq_dec : EqDecision entity.
Proof. solve_decision. Defined.

(** What a run does that can be observed from outside, in order. *)
Inductive event :=
  (** [logger.<lvl>(fmt, *args)] *)
  | Log (lvl : level) (fmt : string) (args : list string)
  (** [load_isis_records] yields [(coll, record)]; in [run] the pair goes
      to [ctrl.write_record] *)
  | Yield (coll : string) (r : record)
  (** [rc.documents], [rc.journals] or [rc.issues], called with
      [(collection, issn=issn, only_identifiers=True)] *)
  | Listed (e : entity) (collection : string) (issn : option string)
  (** [ctrl.load_document], [ctrl.load_journal], [ctrl.load_issue] *)
  | Loaded (e : entity) (collection code : string) (res : result (option string))
  (** [rc.add_document], [rc.add_journal], [rc.add_issue] *)
  | Added (e : entity) (payload : string) (res : result unit)
  (** [rc.delete_document], [rc.delete_journal], [rc.delete_issue] *)
  | Deleted (e : entity) (code collection : string) (res : result unit).

#[global] Instance event_eq_dec : EqDecision event.
Proof. solve_decision. Defined.

(** ** [load_isis_records] *)

Definition DATABASES : list (string * string) :=
  [("title", "journals"); ("issue", "issues");
   ("artigo", "articles"); ("bib4cit", "references")].

(** The ISIS record source: [ISO_PATH], and for the path of an ISO file
    the records [IsisDataBroker(isofile).read()] produces, [None] when
    opening the file raises [IOError]. *)
Record isis := {
  ISO_PATH : string;
  iso_records : string → option (list record);
}.

Definition isofile_of (src : isis) (collection iso : string) : string :=
  ISO_PATH src +:+ "/../isos/" +:+ collection +:+ "/" +:+ iso +:+ ".iso".

(** [issns and not record['journal'] in issns]: [Ok true] when the record
    is filtered out.  A missing key raises [KeyError]; a value that is not a
    string is equal to no ISSN. *)
Definition filtered_out (issns : list string) (r : record) : result bool :=
  match issns with
  | [] => Ok false
  | _ =>
      match r !! "journal" with
      | None => Raise KeyError
      | Some (PStr j) => Ok (negb (bool_decide (j ∈ issns)))
      | Some (POccs _) => Ok true
      end
  end.

Definition str_of_nat (n : nat) : string := PyStr.str_of_int (N.of_nat n).

(** The [logger.debug] call that opens the loop body, for record number
    [ndx]. *)
Definition reading_log (ndx : nat) (isofile : string) : event :=
  Log DEBUG "Reading record (%d) from iso (%s)" [str_of_nat ndx; isofile].

Definition integrity_log : event :=
  Log ERROR "Fail to load document. Integrity error." [].

(** The inner loop, over the records of one ISO file: the events it
    produces and the exception that ends it, if any.  The handler sets a
    debugger breakpoint, taken here to return, and calls [prepare_record]
    again on the same record object, outside any [try]. *)
Fixpoint scan_records (dt : datetime) (collection coll isofile : string)
    (issns : list string) (ndx : nat) (records : list record)
    : list event * option exn :=
  match records with
  | [] => ([], None)
  | r :: rest =>
      let reading := reading_log (S ndx) isofile in
      let continue (evs : list event) :=
        let '(evs', st) := scan_records dt collection coll isofile issns (S ndx) rest in
        (reading :: evs ++ evs', st) in
      match prepare_record dt collection r with
      | (r', Raise _) =>
          match prepare_record dt collection r' with
          | (_, Raise e) => ([reading], Some e)
          | (_, Ok _) => continue [integrity_log]
          end
      | (_, Ok None) => continue []
      | (_, Ok (Some r')) =>
          match filtered_out issns r' with
          | Raise e => ([reading], Some e)
          | Ok true => continue []
          | Ok false => continue [Yield coll r']
          end
      end
  end.

(** The outer loop, over [DATABASES]. *)
Fixpoint scan_databases (dt : datetime) (src : isis) (collection : string)
    (issns : list string) (dbs : list (string * string)) : list event * option exn :=
  match dbs with
  | [] => ([], None)
  | (iso, coll) :: dbs' =>
      let recording :=
        Log INFO "Recording (%s) records for collection (%s)" [coll; collection] in
      let isofile := isofile_of src collection iso in
      match iso_records src isofile with
      | None => ([recording], Some ValueError)
      | Some records =>
          match scan_records dt collection coll isofile issns 0 records with
          | (evs, Some e) => (recording :: evs, Some e)
          | (evs, None) =>
              let '(evs', st) := scan_databases dt src collection issns dbs' in
              (recording :: evs ++ evs', st)
          end
      end
  end.

Definition load_isis_records (dt : datetime) (src : isis) (collection : string)
    (issns : list string) : list event * option exn :=
  scan_databases dt src collection issns DATABASES.

(** ** The collaborators of [run] *)

(** An item of an identifier listing of the remote catalog. *)
Record identifier := {
  id_collection : string;
  id_code : string;
  id_processing_date : string;
}.

(** The remote catalog client [rc] and the legacy data broker [ctrl].  Each
    answer may depend on everything that happened before, the trace so far.
    A listing [rc.documents], [rc.issues] or [rc.journals] is iterated by a
    [for] loop: its answer is the items it delivers and the exception that
    ends the iteration, if any.  The answers to [load], [add] and [delete]
    are a value or an exception.  [ctrl]'s identifier lists, attributes of
    the broker, are taken to return.  [ctrl_load] answers [Ok None] for a
    falsy payload, and the payload it answers otherwise is the one
    [json.dumps] serialises. *)
Record world := {
  ADMINTOKEN : string;
  ARTICLEMETA_THRIFTSERVER : string;
  rc_list : list event → entity → string → option string
            → list identifier * option exn;
  ctrl_ids : list event → entity → list string;
  ctrl_load : list event → entity → string → string → result (option string);
  rc_add : list event → entity → string → result unit;
  rc_delete : list event → entity → string → string → result unit;
}.

(** A computation that extends the trace and returns or raises. *)
Definition M (A : Type) : Type := list event → list event * result A.

#[global] Instance M_ret : MRet M := λ A a h, (h, Ok a).
#[global] Instance M_bind : MBind M := λ A B k m h,
  match m h with
  | (h', Ok a) => k a h'
  | (h', Raise e) => (h', Raise e)
  end.

Definition raise {A : Type} (e : exn) : M A := λ h, (h, Raise e).
Definition emit (evs : list event) : M unit := λ h, (h ++ evs, Ok ()).
Definition log (lvl : level) (fmt : string) (args : list string) : M unit :=
  emit [Log lvl fmt args].

(** ** The remote identifier loaders *)

(** [collection_code_date] for documents and issues, [collection_code] for
    journals. *)
Definition key_of (e : entity) (i : identifier) : string :=
  match e with
  | Journal => PyStr.join "_" [id_collection i; id_code i]
  | _ => PyStr.join "_" [id_collection i; id_code i;
                         PyStr.remove_char "-" (id_processing_date i)]
  end.

Definition loading_fmt (e : entity) : string :=
  match e with
  | Document => "Loading articlemeta documents ids"
  | Journal => "Loading articlemeta journals ids"
  | Issue => "Loading articlemeta issues ids"
  end.

Definition loading_id_fmt (e : entity) : string :=
  match e with
  | Document => "Loading articlemeta document id (%s)"
  | Journal => "Loading articlemeta journal id (%s)"
  | Issue => "Loading articlemeta issue id (%s)"
  end.

(** [issns or [None]] *)
Definition issns_or_none (issns : list string) : list (option string) :=
  match issns with
  | [] => [None]
  | _ => Some <$> issns
  end.

(** The call of a listing: the items it delivers to the loop, and the
    exception that ends the iteration, if any. *)
Definition list_query (w : world) (e : entity) (collection : string)
    (issn : option string) : M (list identifier * option exn) := λ h,
  (h ++ [Listed e collection issn], Ok (rc_list w h e collection issn)).

(** The two nested loops of a loader; [pids] is the list built so far.  The
    inner loop logs and appends the key of every item the listing delivers;
    an exception of the listing is not handled and ends the loader. *)
Fixpoint load_ids (w : world) (e : entity) (collection : string)
    (issns : list (option string)) (pids : list string) : M (list string) :=
  match issns with
  | [] => mret pids
  | issn :: issns' =>
      listing ← list_query w e collection issn;
      emit ((λ i, Log DEBUG (loading_id_fmt e) [key_of e i]) <$> listing.1);;
      match listing.2 with
      | Some ex => raise ex
      | None => load_ids w e collection issns' (pids ++ (key_of e <$> listing.1))
      end
  end.

Definition load_articlemeta_ids (w : world) (e : entity) (collection : string)
    (issns : list string) : M (list string) :=
  log INFO (loading_fmt e) [];;
  load_ids w e collection (issns_or_none issns) [].

Definition load_articlemeta_issues_ids := λ w, load_articlemeta_ids w Issue.
Definition load_articlemeta_documents_ids := λ w, load_articlemeta_ids w Document.
Definition load_articlemeta_journals_ids := λ w, load_articlemeta_ids w Journal.

(** ** The phases of [run] *)

Definition load (w : world) (e : entity) (collection code : string)
    : M (result (option string)) := λ h,
  let res := ctrl_load w h e collection code in
  (h ++ [Loaded e collection code res], Ok res).

Definition add (w : world) (e : entity) (payload : string)
    : M (result unit) := λ h,
  let res := rc_add w h e payload in
  (h ++ [Added e payload res], Ok res).

Definition delete_remote (w : world) (e : entity) (code collection : string)
    : M (result unit) := λ h,
  let res := rc_delete w h e code collection in
  (h ++ [Deleted e code collection res], Ok res).

Definition including_fmt (e : entity) : string :=
  match e with
  | Document => "Documents being included into articlemeta (%d)"
  | Journal => "Journals being included into articlemeta (%d)"
  | Issue => "Issues to being included into articlemeta (%d)"
  end.

Definition load_failed_fmt (e : entity) : string :=
  match e with
  | Document => "Fail to load document into Articlemeta (%s)"
  | Journal => "Fail to load journal into Articlemeta (%s)"
  | Issue => "Fail to load issue into Articlemeta (%s)"
  end.

(** The same text for the three entity types. *)
Definition add_failed_fmt (e : entity) : string :=
  "Fail to load document into Articlemeta (%s)".

Definition loaded_fmt (e : entity) : string :=
  match e with
  | Document => "Document (%d, %d) loaded into Articlemeta (%s)"
  | Journal => "Journal (%d, %d) loaded into Articlemeta (%s)"
  | Issue => "Issue (%d, %d) loaded into Articlemeta (%s)"
  end.

(** The loop of an addition phase, [ndx] items in.  The bare [except]
    around the load catches the [IndexError] of [item[1]] too, but its
    handler evaluates [item[1]] again. *)
Fixpoint add_items (w : world) (e : entity) (total ndx : nat)
    (items : list string) : M unit :=
  match items with
  | [] => mret ()
  | key :: rest =>
      match PyStr.split "_" key with
      | collection :: code :: _ =>
          let name := PyStr.join "_" [collection; code] in
          res ← load w e collection code;
          match res with
          | Ok (Some meta) =>
              res' ← add w e meta;
              match res' with
              | Ok _ =>
                  log DEBUG (loaded_fmt e) [str_of_nat (S ndx); str_of_nat total; name];;
                  add_items w e total (S ndx) rest
              | Raise ServerError =>
                  log ERROR (add_failed_fmt e) [name];;
                  add_items w e total (S ndx) rest
              | Raise ex => raise ex
              end
          | _ =>
              log ERROR (load_failed_fmt e) [name];;
              add_items w e total (S ndx) rest
          end
      | _ => raise IndexError
      end
  end.

Definition add_phase (w : world) (e : entity) (new : list string) : M unit :=
  log INFO (including_fmt e) [str_of_nat (length new)];;
  add_items w e (length new) 0 new.

Definition threshold (e : entity) : nat :=
  match e with
  | Document => 2000
  | Journal => 5
  | Issue => 20
  end.

Definition removing_fmt (e : entity) : string :=
  match e with
  | Document => "Documents to be removed from articlemeta (%d)"
  | Journal => "Journals to be removed from articlemeta (%d)"
  | Issue => "Issues to be removed from articlemeta (%d)"
  end.

Definition skipped_fmt (e : entity) : string :=
  match e with
  | Document => "To many documents to be removed, the remove task will be skipped"
  | Journal => "To many journals to be removed, the remove task will be skipped"
  | Issue => "To many issues to be removed, the remove task will be skipped"
  end.

Definition unauthorized_fmt : string :=
  "Unauthorized access to remove itens, check the ArticleMeta admin token".

(** The loop of a removal phase: [rc.delete_*(item[1], item[0])]. *)
Fixpoint remove_items (w : world) (e : entity) (items : list string) : M unit :=
  match items with
  | [] => mret ()
  | key :: rest =>
      match PyStr.split "_" key with
      | collection :: code :: _ =>
          res ← delete_remote w e code collection;
          match res with
          | Ok _ => remove_items w e rest
          | Raise UnauthorizedAccess =>
              log WARNING unauthorized_fmt [];;
              remove_items w e rest
          | Raise ex => raise ex
          end
      | _ => raise IndexError
      end
  end.

(** [if not len(to_remove) > threshold: ... else: ...] *)
Definition remove_phase (w : world) (e : entity) (to_remove : list string) : M unit :=
  log INFO (removing_fmt e) [str_of_nat (length to_remove)];;
  if decide (threshold e < length to_remove)
  then log INFO (skipped_fmt e) []
  else remove_items w e to_remove.

(** ** [run] *)

(** The [for] loop over [load_isis_records]; an exception of the generator
    ends the run. *)
Definition write_records (dt : datetime) (src : isis) (collection : string)
    (issns : list string) : M unit := λ h,
  match load_isis_records dt src collection issns with
  | (evs, None) => (h ++ evs, Ok ())
  | (evs, Some e) => (h ++ evs, Raise e)
  end.

Definition legacy_ids (w : world) (e : entity) : M (gset string) := λ h,
  (h, Ok (list_to_set (ctrl_ids w h e))).

(** The six lists of lines 246-252. *)
Record plan := {
  to_add : entity → list string;
  to_remove : entity → list string;
}.

(** [list(legacy - articlemeta)] and [list(articlemeta - legacy)]. *)
Definition diff (legacy articlemeta : entity → gset string) : plan :=
  {| to_add := λ e, elements (legacy e ∖ articlemeta e);
     to_remove := λ e, elements (articlemeta e ∖ legacy e) |}.

(** Lines 222-252: the identifiers of both sides and their differences. *)
Definition run_plan (dt : datetime) (src : isis) (w : world) (collection : string)
    (issns : list string) : M plan :=
  log INFO "Running Isis2mongo" [];;
  log DEBUG "Thrift Server: %s" [ARTICLEMETA_THRIFTSERVER w];;
  log DEBUG "Admin Token: %s" [ADMINTOKEN w];;
  log INFO "Loading data for collection: %s" [collection];;
  documents ← load_articlemeta_documents_ids w collection issns;
  issues ← load_articlemeta_issues_ids w collection issns;
  journals ← load_articlemeta_journals_ids w collection issns;
  write_records dt src collection issns;;
  legacy_documents ← legacy_ids w Document;
  legacy_issues ← legacy_ids w Issue;
  legacy_journals ← legacy_ids w Journal;
  mret (diff
          (λ e, match e with
                | Document => legacy_documents
                | Issue => legacy_issues
                | Journal => legacy_journals
                end)
          (λ e, match e with
                | Document => list_to_set documents
                | Issue => list_to_set issues
                | Journal => list_to_set journals
                end)).

(** Lines 254-419: additions and removals, documents, then journals, then
    issues. *)
Definition execute (w : world) (p : plan) : M unit :=
  add_phase w Document (to_add p Document);;
  remove_phase w Document (to_remove p Document);;
  add_phase w Journal (to_add p Journal);;
  remove_phase w Journal (to_remove p Journal);;
  add_phase w Issue (to_add p Issue);;
  remove_phase w Issue (to_remove p Issue);;
  log INFO "Process Isis2mongo Finished" [].

Definition run (dt : datetime) (src : isis) (w : world) (collection : string)
    (issns : list string) : M unit :=
  p ← run_plan dt src w collection issns;
  execute w p.

(** ** Auxiliary definitions for the statements *)

(** The precedence as the specification words it, by presence of a value:
    the [v880] value if there is one, else the issue PID if one is computed,
    else the [v400] value. *)
Definition pid_by_presence (r : record) : result (option string) :=
  v880 ← primary r "v880";
  match v880 with
  | Some p => Ok (Some p)
  | None =>
      ipid ← issue_pid r;
      match ipid with
      | Some p => Ok (Some p)
      | None => primary r "v400"
      end
  end.

(** The record as the renaming loop of [prepare_record] leaves it. *)
Definition renamed (r : record) : record := (rename_tags (tuple_of r) r).1.

(** [Some t] when [k] is ["v" + t]. *)
Definition strip_v (k : string) : option string :=
  match k with
  | String c t => if Ascii.eqb c "v" then Some t else None
  | EmptyString => None
  end.

(** What the loop over [tags] leaves under key [k], from the record [m] it
    starts on. *)
Definition renamed_lookup (tags : list string) (m : record) (k : string)
    : option pyval :=
  if PyStr.isdigit k then (if bool_decide (k ∈ tags) then None else m !! k)
  else match strip_v k with
       | Some t => if PyStr.isdigit t && bool_decide (t ∈ tags) then m !! t else m !! k
       | None => m !! k
       end.

(** A record source for the examples: [ISO_PATH] is [/app], and the four
    ISO files of [collection] hold the given records. *)
Definition isis_of (collection : string) (title issue artigo bib4cit : list record)
    : isis :=
  {| ISO_PATH := "/app";
     iso_records := λ path,
       if decide (path = "/app/../isos/" +:+ collection +:+ "/title.iso") then Some title
       else if decide (path = "/app/../isos/" +:+ collection +:+ "/issue.iso") then Some issue
       else if decide (path = "/app/../isos/" +:+ collection +:+ "/artigo.iso") then Some artigo
       else if decide (path = "/app/../isos/" +:+ collection +:+ "/bib4cit.iso") then Some bib4cit
       else None |}.

(** A world for the examples: the answers do not depend on the trace, and
    every listing delivers its items without an exception. *)
Definition world_of (listing : entity → option string → list identifier)
    (legacy : entity → list string)
    (loaded : entity → string → string → result (option string))
    (added : entity → string → result unit)
    (deleted : entity → string → string → result unit) : world :=
  {| ADMINTOKEN := "admin";
     ARTICLEMETA_THRIFTSERVER := "admin";
     rc_list := λ _ e _ issn, (listing e issn, None);
     ctrl_ids := λ _ e, legacy e;
     ctrl_load := λ _, loaded;
     rc_add := λ _, added;
     rc_delete := λ _, deleted |}.

(** An item of a listing of collection [scl]. *)
Definition ident (code date : string) : identifier :=
  {| id_collection := "scl"; id_code := code; id_processing_date := date |}.

(** A broker and a catalog for a batch of three documents: the load of
    [D1] raises, the submission of the payload of [D2] raises [ServerError],
    [D3] goes through. *)
Definition three_documents : world :=
  world_of (λ _ _, []) (λ _, [])
    (λ _ _ code,
       if decide (code = "D1") then Raise (Exception "OperationalError")
       else Ok (Some ("{" +:+ code +:+ "}")))
    (λ _ payload, if decide (payload = "{D2}") then Raise ServerError else Ok ())
    (λ _ _ _, Ok ()).


(** The identifier listings in a trace: entity type, collection, ISSN. *)
Definition queries (h : list event) : list (entity * string * option string) :=
  omap (λ ev, match ev with
              | Listed e c issn => Some (e, c, issn)
              | _ => None
              end) h.

(** The arguments of a [delete] call for entity type [e]: code,
    collection. *)
Definition delete_call (e : entity) (ev : event) : option (string * string) :=
  match ev with
  | Deleted e' code c _ => if decide (e' = e) then Some (code, c) else None
  | _ => None
  end.

(** The arguments of a [load] call for entity type [e]: collection, code. *)
Definition load_call (e : entity) (ev : event) : option (string * string) :=
  match ev with
  | Loaded e' c code _ => if decide (e' = e) then Some (c, code) else None
  | _ => None
  end.

(** The payload a [load] call for [e] returned. *)
Definition load_payload (e : entity) (ev : event) : option string :=
  match ev with
  | Loaded e' _ _ (Ok (Some meta)) => if decide (e' = e) then Some meta else None
  | _ => None
  end.

(** The payload of an [add] call for [e]. *)
Definition add_call (e : entity) (ev : event) : option string :=
  match ev with
  | Added e' meta _ => if decide (e' = e) then Some meta else None
  | _ => None
  end.

(** The calls of each kind in a trace, in order. *)
Definition deletes (e : entity) (h : list event) := omap (delete_call e) h.
Definition loads (e : entity) (h : list event) := omap (load_call e) h.
Definition payloads (e : entity) (h : list event) := omap (load_payload e) h.
Definition adds (e : entity) (h : list event) := omap (add_call e) h.

(** A computation that adds no event the filter [f] selects. *)
Definition quiet {A B : Type} (f : event → option B) (m : M A) : Prop :=
  ∀ h, omap f (m h).1 = omap f h.

(** The events of a scan: log lines and yielded pairs. *)
Definition scan_event (ev : event) : Prop :=
  match ev with
  | Log _ _ _ | Yield _ _ => True
  | _ => False
  end.

(** [(item[0], item[1])] of a key, when it has two pieces. *)
Definition key_parts (key : string) : option (string * string) :=
  match PyStr.split "_" key with
  | collection :: code :: _ => Some (collection, code)
  | _ => None
  end.


(** Whether the character [c] occurs in [s]. *)
Fixpoint has_char (c : ascii) (s : string) : bool :=
  match s with
  | EmptyString => false
  | String x s' => Ascii.eqb x c || has_char c s'
  end.

(** The pairs a scan yields, in order. *)
Definition yields (evs : list event) : list (string * record) :=
  omap (λ ev, match ev with Yield coll r => Some (coll, r) | _ => None end) evs.

(** What the loop body of the scan does with a record that raises
    nothing: the record to yield, if any. *)
Definition kept (dt : datetime) (collection : string) (issns : list string)
    (r : record) : option record :=
  match (prepare_record dt collection r).2 with
  | Ok (Some out) =>
      match filtered_out issns out with
      | Ok false => Some out
      | _ => None
      end
  | _ => None
  end.

(** A record on which neither [prepare_record] nor the ISSN check
    raises. *)
Definition scannable (dt : datetime) (collection : string) (issns : list string)
    (r : record) : Prop :=
  match (prepare_record dt collection r).2 with
  | Ok (Some out) => ∃ b, filtered_out issns out = Ok b
  | Ok None => True
  | Raise _ => False
  end.

(** A computation whose events selected by [f] are, in order, related by
    [R] to the first items of [items]. *)
Definition extends_by {A B C : Type} (f : event → option B) (R : C → B → Prop)
    (items : list C) (m : M A) : Prop :=
  ∀ h, ∃ n bs, omap f (m h).1 = omap f h ++ bs ∧ Forall2 R (take n items) bs.

(** A computation that submits, for entity type [e], exactly the payloads
    its loads return, in order. *)
Definition balanced {A : Type} (e : entity) (m : M A) : Prop :=
  ∀ h, ∃ ps, payloads e (m h).1 = payloads e h ++ ps ∧
             adds e (m h).1 = adds e h ++ ps.

(** * Properties *)

(** A closed, decidable statement, settled by evaluating its decision
    procedure. *)
Ltac by_evaluation := apply (bool_decide_unpack _); vm_compute; exact I.

(** ** Strings *)

Lemma slice_0_app (a b : string) (n : nat) :
  String.length a = n → PyStr.slice (a +:+ b) 0 n = a.
Proof.
  intros <-. unfold PyStr.slice. rewrite Nat.sub_0_r.
  induction a as [|c a IH]; simpl.
  - by destruct b.
  - by rewrite IH.
Qed.

Lemma slice_from_app (a b : string) (n : nat) :
  String.length a = n → PyStr.slice_from (a +:+ b) n = b.
Proof. intros <-. induction a as [|c a IH]; simpl; [by destruct b | done]. Qed.

Lemma match_leading_digits_app (digits tail : string) :
  PyStr.all_digits digits = true →
  starts_with_digit tail = false →
  PyStr.match_leading_digits (digits +:+ tail) = digits.
Proof.
  intros Hd Ht. induction digits as [|c ds IH]; simpl in *.
  - destruct tail as [|c t]; simpl in *; [done | by rewrite Ht].
  - apply andb_true_iff in Hd as [Hc Hds]. by rewrite Hc, IH.
Qed.

Lemma primary_Some (r : record) (tag s : string) :
  primary r tag = Ok (Some s) ↔
  ∃ v, r !! tag = Some v ∧ first_primary v = Ok s.
Proof.
  unfold primary. destruct (r !! tag) as [v|]; simpl.
  - destruct (first_primary v) as [s'|e] eqn:Hv; simpl; split.
    + intros [= ->]. by exists v.
    + intros (v' & [= <-] & Hv'). rewrite Hv in Hv'. by injection Hv' as ->.
    + intros [=].
    + intros (v' & [= <-] & Hv'). by rewrite Hv in Hv'.
  - split; [intros [=] | by intros (? & [=] & _)].
Qed.

Lemma primary_absent (r : record) (tag : string) :
  r !! tag = None → primary r tag = Ok None.
Proof. intros H. unfold primary. by rewrite H. Qed.

(** ** [issue_pid] *)

(** C1.  When the primary value of [v35] is a string [issn] and that of
    [v36] is a string of at least four characters -- four characters [year],
    then a run of decimal digits [digits] that ends at the end of the string
    or before a character that is not a digit -- [issue_pid] returns [issn],
    then [year], then the number [digits] spells (0 for an empty run)
    written with ["%04d"]. *)
Theorem issue_pid_spec (r : record) (issn year digits tail : string) :
  primary r "v35" = Ok (Some issn) →
  primary r "v36" = Ok (Some (year +:+ digits +:+ tail)) →
  String.length year = 4 →
  PyStr.all_digits digits = true →
  starts_with_digit tail = false →
  issue_pid r =
    Ok (Some (issn +:+ year +:+
              PyStr.format_04d (if decide (digits = "") then 0%N else PyStr.int digits))).
Proof.
  intros H35 H36 Hy Hd Ht.
  unfold issue_pid, issue_pid_try. rewrite H35, H36. simpl.
  rewrite (slice_0_app _ _ _ Hy), (slice_from_app _ _ _ Hy).
  by rewrite (match_leading_digits_app _ _ Hd Ht).
Qed.

(** The four examples of the docstring, each an instance of the theorem
    above. *)
Lemma issue_pid_examples :
  issue_pid {[ "v35" := field "0032-281X"; "v36" := field "20023" ]}
    = Ok (Some "0032-281X20020003") ∧
  issue_pid {[ "v35" := field "0032-281X"; "v36" := field "200221" ]}
    = Ok (Some "0032-281X20020021") ∧
  issue_pid {[ "v35" := field "0032-281X"; "v36" := field "20021-4" ]}
    = Ok (Some "0032-281X20020001") ∧
  issue_pid {[ "v35" := field "0032-281X"; "v36" := field "2002" ]}
    = Ok (Some "0032-281X20020000").
Proof.
  split; [|split; [|split]].
  - apply (issue_pid_spec _ "0032-281X" "2002" "3" ""); reflexivity.
  - apply (issue_pid_spec _ "0032-281X" "2002" "21" ""); reflexivity.
  - apply (issue_pid_spec _ "0032-281X" "2002" "1" "-4"); reflexivity.
  - apply (issue_pid_spec _ "0032-281X" "2002" "" ""); reflexivity.
Defined.

(** ** The renaming loop *)

Lemma strip_v_Some (k t : string) : strip_v k = Some t ↔ k = "v" +:+ t.
Proof.
  destruct k as [|c k]; simpl; [done|].
  destruct (Ascii.eqb_spec c "v") as [->|Hc]; split; intros [=]; by subst.
Qed.

Lemma v_inj (a b : string) : "v" +:+ a = "v" +:+ b → a = b.
Proof. intros [= Heq]. exact Heq. Qed.

Lemma isdigit_v (t : string) : PyStr.isdigit ("v" +:+ t) = false.
Proof. done. Qed.

Lemma rename_tags_lookup (tags : list string) :
  ∀ m : record,
    NoDup tags → (∀ t, t ∈ tags → is_Some (m !! t)) →
    ∃ m', rename_tags tags m = (m', Ok ()) ∧
          ∀ k, m' !! k = renamed_lookup tags m k.
Proof.
  induction tags as [|t ts IH]; intros m Hnd Hdom.
  - exists m. split; [done|]. intros k. unfold renamed_lookup.
    destruct (PyStr.isdigit k); [|destruct (strip_v k) as [t|]; [|done]];
      rewrite bool_decide_eq_false_2 by apply not_elem_of_nil; [done|].
    by rewrite andb_false_r.
  - apply NoDup_cons in Hnd as [Ht Hnd]. simpl.
    destruct (PyStr.isdigit t) eqn:Hdt.
    + destruct (Hdom t) as [v Hv]; [by left|]. rewrite Hv.
      destruct (IH (delete t (<["v" +:+ t := v]> m))) as (m' & Hm' & Hl); [done| |].
      { intros t' Ht'. assert (t' ≠ t) by (by intros ->).
        rewrite lookup_delete_ne by done.
        destruct (decide ("v" +:+ t = t')) as [<-|Hne].
        - rewrite lookup_insert_eq. eauto.
        - rewrite lookup_insert_ne by done. apply Hdom. by right. }
      exists m'. split; [done|]. intros k. rewrite Hl. unfold renamed_lookup.
      assert (Hvt : ∀ t', PyStr.isdigit t' = true → "v" +:+ t ≠ t').
      { intros t' Hd <-. by rewrite isdigit_v in Hd. }
      destruct (PyStr.isdigit k) eqn:Hdk.
      * destruct (decide (k ∈ ts)) as [Hk|Hk].
        { rewrite !bool_decide_eq_true_2; [done | by right | done]. }
        rewrite (bool_decide_eq_false_2 (k ∈ ts)) by done.
        destruct (decide (k = t)) as [->|Hkt].
        -- rewrite lookup_delete_eq, bool_decide_eq_true_2; [done | by left].
        -- rewrite lookup_delete_ne, lookup_insert_ne by auto.
           rewrite bool_decide_eq_false_2; [done|].
           by intros [?|?]%elem_of_cons.
      * assert (k ≠ t) by (intros ->; congruence).
        destruct (strip_v k) as [t0|] eqn:Hs.
        -- apply strip_v_Some in Hs as ->.
           destruct (PyStr.isdigit t0) eqn:Hd0; cbn [andb].
           ++ destruct (decide (t0 ∈ ts)) as [H0|H0].
              { rewrite !bool_decide_eq_true_2; [|by right|done].
                rewrite lookup_delete_ne, lookup_insert_ne; [done|auto|].
                by intros <-. }
              rewrite (bool_decide_eq_false_2 (t0 ∈ ts)) by done.
              rewrite lookup_delete_ne by done.
              destruct (decide (t0 = t)) as [->|H0t].
              ** rewrite bool_decide_eq_true_2 by (by left).
                 rewrite Hv. apply lookup_insert_eq.
              ** rewrite lookup_insert_ne by (by intros Heq%v_inj).
                 rewrite bool_decide_eq_false_2; [done|].
                 by intros [?|?]%elem_of_cons.
           ++ rewrite lookup_delete_ne, lookup_insert_ne; [done| |done].
              intros Heq%v_inj. congruence.
        -- rewrite lookup_delete_ne, lookup_insert_ne; [done| |done].
           intros <-. by simpl in Hs.
    + destruct (IH m) as (m' & Hm' & Hl); [done| |].
      { intros t' Ht'. apply Hdom. by right. }
      exists m'. split; [done|]. intros k. rewrite Hl. unfold renamed_lookup.
      destruct (PyStr.isdigit k) eqn:Hdk.
      * destruct (decide (k ∈ ts)) as [Hk|Hk].
        { rewrite !bool_decide_eq_true_2; [done | by right | done]. }
        rewrite !bool_decide_eq_false_2; [done| |done].
        intros [->|?]%elem_of_cons; [congruence | done].
      * destruct (strip_v k) as [t0|] eqn:Hs; [|done].
        destruct (PyStr.isdigit t0) eqn:Hd0; cbn [andb]; [|done].
        destruct (decide (t0 ∈ ts)) as [H0|H0].
        { rewrite !bool_decide_eq_true_2; [done | by right | done]. }
        rewrite !bool_decide_eq_false_2; [done| |done].
        intros [->|?]%elem_of_cons; [congruence | done].
Qed.

(** The renaming loop of [prepare_record] never raises; under [k] it
    leaves nothing when [k] is made of digits, the field of tag [t] when [k]
    is ["v" + t] for a tag [t] of digits that the record has, and what the
    record had under [k] otherwise. *)
Lemma rename_tags_tuple (r : record) :
  rename_tags (tuple_of r) r = (renamed r, Ok ()) ∧
  ∀ k, renamed r !! k =
       if PyStr.isdigit k then None
       else match strip_v k with
            | Some t => if PyStr.isdigit t then
                          match r !! t with Some v => Some v | None => r !! k end
                        else r !! k
            | None => r !! k
            end.
Proof.
  assert (Hin : ∀ t, t ∈ tuple_of r ↔ is_Some (r !! t)).
  { intros t. unfold tuple_of. rewrite list_elem_of_fmap. split.
    - intros ([t' v] & -> & Hv%elem_of_map_to_list). by exists v.
    - intros [v Hv]. exists (t, v). by rewrite elem_of_map_to_list. }
  destruct (rename_tags_lookup (tuple_of r) r) as (m' & Hm' & Hl).
  { apply NoDup_fst_map_to_list. }
  { intros t. apply Hin. }
  unfold renamed. rewrite Hm'. split; [done|]. simpl. intros k.
  rewrite Hl. unfold renamed_lookup.
  destruct (PyStr.isdigit k).
  - destruct (decide (k ∈ tuple_of r)) as [Hk|Hk].
    + by rewrite bool_decide_eq_true_2.
    + rewrite bool_decide_eq_false_2 by done.
      destruct (r !! k) eqn:Hrk; [|done]. exfalso. apply Hk, Hin. eauto.
  - destruct (strip_v k) as [t|]; [|done].
    destruct (PyStr.isdigit t); cbn [andb]; [|done].
    destruct (decide (t ∈ tuple_of r)) as [Ht|Ht].
    + rewrite bool_decide_eq_true_2 by done.
      apply Hin in Ht as [v ->]. done.
    + rewrite bool_decide_eq_false_2 by done.
      destruct (r !! t) eqn:Hrt; [|done]. exfalso. apply Ht, Hin. eauto.
Qed.

Lemma renamed_lookup_plain (r : record) (k : string) :
  PyStr.isdigit k = false → strip_v k = None → renamed r !! k = r !! k.
Proof.
  intros Hd Hs. rewrite (proj2 (rename_tags_tuple r)). by rewrite Hd, Hs.
Qed.

Lemma renamed_no_digit_key (r : record) (k : string) :
  PyStr.isdigit k = true → renamed r !! k = None.
Proof. intros Hd. rewrite (proj2 (rename_tags_tuple r)). by rewrite Hd. Qed.

(** A record without a key made of digits is left as it is. *)
Lemma renamed_id (r : record) :
  (∀ k, PyStr.isdigit k = true → r !! k = None) → renamed r = r.
Proof.
  intros Hr. apply map_eq. intros k. rewrite (proj2 (rename_tags_tuple r)).
  destruct (PyStr.isdigit k) eqn:Hd; [by rewrite Hr|].
  destruct (strip_v k) as [t|]; [|done].
  destruct (PyStr.isdigit t) eqn:Hdt; [|done]. by rewrite Hr.
Qed.

Lemma renamed_renamed (r : record) : renamed (renamed r) = renamed r.
Proof. apply renamed_id. intros k. apply renamed_no_digit_key. Qed.

(** ** [prepare_record] *)

Lemma prepare_record_eq (dt : datetime) (c : string) (r : record) :
  prepare_record dt c r =
    match derive_pid (renamed r) with
    | Raise e => (renamed r, Raise e)
    | Ok pid => finish_record dt c pid (renamed r)
    end.
Proof. unfold prepare_record. by rewrite (proj1 (rename_tags_tuple r)). Qed.

Lemma truthy_Some (v : option string) :
  truthy v = true ↔ ∃ p, v = Some p ∧ p ≠ "".
Proof.
  destruct v as [[|a p]|]; simpl; split; try done.
  - by intros (? & [= <-] & ?).
  - intros _. by eexists.
  - by intros (? & [=] & _).
Qed.

Lemma finish_record_Some (dt : datetime) (c : string) (pid : option string)
    (r r' out : record) :
  finish_record dt c pid r = (r', Ok (Some out)) →
  ∃ p iso, pid = Some p ∧ p ≠ "" ∧ r' = out ∧
           out = decompose p (<["processing_date" := PStr iso]> (stamp c p r)).
Proof.
  unfold finish_record. destruct (truthy pid) eqn:Hp; simpl; [|done].
  apply truthy_Some in Hp as (p & -> & Hp). simpl.
  destruct (processing_date dt _) as [d|e]; [|done].
  destruct (strptime_Ymd dt d) as [iso|]; [|done].
  intros [= <- <-]. by exists p, iso.
Qed.

Lemma finish_record_None (dt : datetime) (c : string) (pid : option string)
    (r : record) :
  (finish_record dt c pid r).2 = Ok None ↔ truthy pid = false.
Proof.
  unfold finish_record. destruct (truthy pid); simpl; [|done].
  destruct (processing_date dt _) as [d|e]; [|done].
  by destruct (strptime_Ymd dt d).
Qed.

(** What [decompose] leaves under the three sub-identifier keys. *)
Lemma decompose_lookup (pid : string) (m : record) :
  let n := String.length pid in
  decompose pid m !! "journal" =
    (if decide (n = 9) then Some (PStr pid)
     else if decide (n = 17) then Some (PStr (PyStr.slice pid 0 9))
     else if decide (n = 23 ∨ n = 28) then Some (PStr (PyStr.slice pid 1 10))
     else m !! "journal") ∧
  decompose pid m !! "issue" =
    (if decide (n = 17) then Some (PStr pid)
     else if decide (n = 23 ∨ n = 28) then Some (PStr (PyStr.slice pid 1 18))
     else m !! "issue") ∧
  decompose pid m !! "document" =
    (if decide (n = 23) then Some (PStr pid)
     else if decide (n = 28) then Some (PStr (PyStr.slice pid 0 23))
     else m !! "document").
Proof.
  intros n. unfold decompose. fold n.
  repeat case_decide; try lia; by simplify_map_eq.
Qed.

Lemma stamp_lookup_other (c pid k : string) (m : record) :
  k ≠ "v880" → k ≠ "code" → k ≠ "collection" → k ≠ "v992" →
  stamp c pid m !! k = m !! k.
Proof. intros. unfold stamp. by rewrite !lookup_insert_ne. Qed.



(** ** The PID chain *)

Lemma issue_pid_ext (r r' : record) :
  r !! "v35" = r' !! "v35" → r !! "v36" = r' !! "v36" →
  issue_pid r = issue_pid r'.
Proof.
  intros H35 H36. unfold issue_pid, issue_pid_try, primary.
  by rewrite H35, H36.
Qed.

Lemma length_app (a b : string) :
  String.length (a +:+ b) = String.length a + String.length b.
Proof. induction a as [|c a IH]; simpl; [by destruct b | by rewrite IH]. Qed.

Lemma length_zeros (n : nat) : String.length (PyStr.zeros n) = n.
Proof. induction n; simpl; congruence. Qed.

Lemma length_format_04d (n : N) : (4 ≤ String.length (PyStr.format_04d n))%nat.
Proof.
  unfold PyStr.format_04d. rewrite length_app, length_zeros. lia.
Qed.

(** A computed issue PID is never the empty string. *)
Lemma issue_pid_nonempty (r : record) (p : string) :
  issue_pid r = Ok (Some p) → p ≠ "".
Proof.
  unfold issue_pid. destruct (issue_pid_try r) as [[[issn year] order]|e] eqn:Htry.
  - destruct issn as [issn|]; [|done]. intros [= <-] Hp.
    apply (f_equal String.length) in Hp.
    rewrite !length_app in Hp.
    assert (4 ≤ String.length order)%nat; [|simpl in Hp; lia].
    unfold issue_pid_try in Htry.
    destruct (primary r "v35"); [|done]. simpl in Htry.
    destruct (primary r "v36") as [[v36|]|]; [|done..]. simpl in Htry.
    injection Htry as _ _ <-. apply length_format_04d.
  - by destruct e.
Qed.

Lemma issue_pid_truthy (r : record) (v : option string) :
  issue_pid r = Ok v → truthy v = false → v = None.
Proof.
  destruct v as [p|]; [|done]. intros Hp%issue_pid_nonempty. by destruct p.
Qed.

(** C3 (the defect).  With no [v35] field and a [v36] field whose primary
    value is a string, the [try] block of [issue_pid] completes with
    [issn = None], and the concatenation after it raises [TypeError], which
    nothing in [issue_pid] catches. *)
Theorem issue_pid_without_v35 (r : record) (v36 : string) :
  r !! "v35" = None →
  primary r "v36" = Ok (Some v36) →
  issue_pid r = Raise TypeError.
Proof.
  intros H35 H36. unfold issue_pid, issue_pid_try.
  by rewrite (primary_absent _ _ H35), H36.
Qed.

Lemma issue_pid_without_v35_example :
  issue_pid {[ "v36" := field "20023" ]} = Raise TypeError.
Proof. by apply (issue_pid_without_v35 _ "20023"). Defined.

(** The case the handler does cover: without [v36] the slice raises
    [TypeError] inside the [try] block. *)
Lemma issue_pid_without_v36 (r : record) (v35 : option string) :
  primary r "v35" = Ok v35 → r !! "v36" = None → issue_pid r = Ok None.
Proof.
  intros H35 H36. unfold issue_pid, issue_pid_try.
  by rewrite H35, (primary_absent _ _ H36).
Qed.

(** Other exception classes pass through the handler: a field without an
    occurrence, an occurrence without a primary value. *)
Lemma issue_pid_other_exceptions :
  issue_pid {[ "v35" := field "0032-281X"; "v36" := POccs [] ]} = Raise IndexError ∧
  issue_pid {[ "v35" := field "0032-281X"; "v36" := POccs [{[ "a" := "x" ]}] ]}
    = Raise KeyError.
Proof. split; by_evaluation. Qed.

Lemma primary_delete_ne (r : record) (k tag : string) :
  k ≠ tag → primary (delete k r) tag = primary r tag.
Proof. intros Hk. unfold primary. by rewrite lookup_delete_ne. Qed.

Lemma derive_pid_falsy_v880 (r : record) (v : option string) :
  primary r "v880" = Ok v → truthy v = false →
  derive_pid r = (ipid ← issue_pid r; if truthy ipid then Ok ipid else primary r "v400").
Proof. intros H880 Hv. unfold derive_pid. rewrite H880. simpl. by rewrite Hv. Qed.

(** The scan of a record that [prepare_record] drops: the [debug] line,
    then the rest of the file. *)
Lemma scan_records_dropped (dt : datetime) (c coll isofile : string)
    (issns : list string) (ndx : nat) (r r' : record) (rest : list record) :
  prepare_record dt c r = (r', Ok None) →
  scan_records dt c coll isofile issns ndx (r :: rest) =
    (reading_log (S ndx) isofile
       :: (scan_records dt c coll isofile issns (S ndx) rest).1,
     (scan_records dt c coll isofile issns (S ndx) rest).2).
Proof.
  intros Hprep. cbn [scan_records]. rewrite Hprep.
  by destruct (scan_records dt c coll isofile issns (S ndx) rest).
Qed.

(** C10.  The chain of line 114 goes by truthiness, on the record [r1] the
    renaming loop leaves.  (1) A [v880] whose primary value is the empty
    string gives the chain the result it has on the record without [v880].
    (2) Whenever the [v880] value is falsy the chain goes on to the issue
    PID, and to [v400] when that is falsy too.  (3) [prepare_record] returns
    [None] exactly when the [v880] value, the issue PID and the [v400] value
    are all falsy.  (4) In particular an empty [v400] value, after a falsy
    [v880] value and no issue PID, makes [prepare_record] return [None]. *)
Theorem pid_chain_truthiness (dt : datetime) (c : string) (r : record) :
  let r1 := renamed r in
  (primary r1 "v880" = Ok (Some "") →
     derive_pid r1 = derive_pid (delete "v880" r1)) ∧
  (∀ v, primary r1 "v880" = Ok v → truthy v = false →
     derive_pid r1 =
       (ipid ← issue_pid r1; if truthy ipid then Ok ipid else primary r1 "v400")) ∧
  ((prepare_record dt c r).2 = Ok None ↔
     ∃ v880 v400,
       primary r1 "v880" = Ok v880 ∧ truthy v880 = false ∧
       issue_pid r1 = Ok None ∧
       primary r1 "v400" = Ok v400 ∧ truthy v400 = false) ∧
  (∀ v880, primary r1 "v880" = Ok v880 → truthy v880 = false →
     issue_pid r1 = Ok None → primary r1 "v400" = Ok (Some "") →
     prepare_record dt c r = (r1, Ok None)).
Proof.
  intros r1. split; [|split; [|split]].
  - intros H880. rewrite (derive_pid_falsy_v880 _ _ H880) by done.
    rewrite (derive_pid_falsy_v880 (delete "v880" r1) None);
      [|apply primary_absent, lookup_delete_eq|done].
    rewrite (issue_pid_ext (delete "v880" r1) r1)
      by (by rewrite lookup_delete_ne).
    by rewrite primary_delete_ne.
  - apply derive_pid_falsy_v880.
  - rewrite prepare_record_eq. fold r1. split.
    + destruct (derive_pid r1) as [pid|e] eqn:Hpid; [|done].
      intros Hdrop%finish_record_None. revert Hpid. unfold derive_pid.
      destruct (primary r1 "v880") as [v880|]; [|done]. simpl.
      destruct (truthy v880) eqn:H880; [intros [= <-]; congruence|].
      destruct (issue_pid r1) as [ipid|] eqn:Hip; [|done]. simpl.
      destruct (truthy ipid) eqn:Hi; [intros [= <-]; congruence|].
      intros H400. exists v880, pid. repeat split; try done.
      by rewrite (issue_pid_truthy _ _ Hip Hi).
    + intros (v880 & v400 & H880 & Hv880 & Hip & H400 & Hv400).
      rewrite (derive_pid_falsy_v880 _ _ H880 Hv880), Hip. simpl. rewrite H400.
      by apply finish_record_None.
  - intros v880 H880 Hv880 Hip H400. rewrite prepare_record_eq. fold r1.
    by rewrite (derive_pid_falsy_v880 _ _ H880 Hv880), Hip; simpl; rewrite H400.
Qed.

(** An empty [v880] next to a [v400]: the PID is the [v400] value, as on
    the record without [v880]; an empty [v400] alone: dropped. *)
Lemma pid_chain_truthiness_example :
  derive_pid (renamed {[ "880" := field ""; "400" := field "0032-281X" ]})
    = derive_pid (delete "v880" (renamed {[ "880" := field ""; "400" := field "0032-281X" ]})) ∧
  prepare_record (datetime_on "2020-01-31") "scl" {[ "400" := field "" ]}
    = (renamed {[ "400" := field "" ]}, Ok None).
Proof.
  split.
  - apply (pid_chain_truthiness (datetime_on "2020-01-31") "scl"
             {[ "880" := field ""; "400" := field "0032-281X" ]}).
    by_evaluation.
  - apply (pid_chain_truthiness (datetime_on "2020-01-31") "scl"
             {[ "400" := field "" ]}) with (v880 := None); by_evaluation.
Defined.

(** C4 (as amended).  On the record [r1] the renaming loop leaves, the PID
    of line 114 is the first truthy value among the [v880] primary value,
    the computed issue PID and the [v400] primary value: (1) a non-empty
    [v880] value; (2) else the issue PID when one is computed; (3) else the
    [v400] value.  (4) A non-empty PID is the one the rest of
    [prepare_record] works with.  (5) When the chain ends on a falsy value
    (no value, or an empty one) [prepare_record] returns [None], and the
    scan of the record produces its [debug] line and no pair. *)
Theorem pid_precedence (dt : datetime) (c : string) (r : record) :
  let r1 := renamed r in
  (∀ p, primary r1 "v880" = Ok (Some p) → p ≠ "" → derive_pid r1 = Ok (Some p)) ∧
  (∀ v p, primary r1 "v880" = Ok v → truthy v = false →
     issue_pid r1 = Ok (Some p) → derive_pid r1 = Ok (Some p)) ∧
  (∀ v v', primary r1 "v880" = Ok v → truthy v = false →
     issue_pid r1 = Ok None → primary r1 "v400" = Ok v' →
     derive_pid r1 = Ok v') ∧
  (∀ p, derive_pid r1 = Ok (Some p) → p ≠ "" →
     prepare_record dt c r = finish_record dt c (Some p) r1) ∧
  (∀ v, derive_pid r1 = Ok v → truthy v = false →
     prepare_record dt c r = (r1, Ok None) ∧
     ∀ coll isofile issns ndx rest,
       scan_records dt c coll isofile issns ndx (r :: rest) =
         (reading_log (S ndx) isofile
            :: (scan_records dt c coll isofile issns (S ndx) rest).1,
          (scan_records dt c coll isofile issns (S ndx) rest).2)).
Proof.
  intros r1. split; [|split; [|split; [|split]]].
  - intros p H880 Hp. unfold derive_pid. rewrite H880. simpl.
    by destruct p.
  - intros v p H880 Hv Hip. rewrite (derive_pid_falsy_v880 _ _ H880 Hv), Hip.
    simpl. apply issue_pid_nonempty in Hip. by destruct p.
  - intros v v' H880 Hv Hip H400.
    by rewrite (derive_pid_falsy_v880 _ _ H880 Hv), Hip.
  - intros p Hpid Hp. rewrite prepare_record_eq. fold r1. by rewrite Hpid.
  - intros v Hpid Hv.
    assert (Hdrop : prepare_record dt c r = (r1, Ok None)).
    { rewrite prepare_record_eq. fold r1. rewrite Hpid.
      unfold finish_record. by rewrite Hv. }
    split; [done|]. intros. by apply scan_records_dropped with (r' := r1).
Qed.

(** A journal record, whose PID is its [v400] value, and an empty record,
    which is dropped. *)
Lemma pid_precedence_example :
  derive_pid (renamed {[ "400" := field "0032-281X" ]}) = Ok (Some "0032-281X") ∧
  prepare_record (datetime_on "2020-01-31") "scl" ∅ = (renamed ∅, Ok None).
Proof.
  split.
  - apply (pid_precedence (datetime_on "2020-01-31") "scl"
             {[ "400" := field "0032-281X" ]}) with (v := None); by_evaluation.
  - apply (pid_precedence (datetime_on "2020-01-31") "scl" ∅) with (v := None);
      by_evaluation.
Defined.

(** C4 (counterexample).  A record with an empty [v880] value and a [v400]
    value: [v880] is present, so the precedence by presence makes the empty
    string the PID, while line 114 goes on to [v400]. *)
Lemma pid_by_presence_counterexample :
  let r1 := renamed {[ "880" := field ""; "400" := field "0032-281X" ]} in
  primary r1 "v880" = Ok (Some "") ∧
  pid_by_presence r1 = Ok (Some "") ∧
  derive_pid r1 = Ok (Some "0032-281X") ∧
  derive_pid r1 ≠ pid_by_presence r1.
Proof.
  intros r1.
  assert (H1 : pid_by_presence r1 = Ok (Some "")) by by_evaluation.
  assert (H2 : derive_pid r1 = Ok (Some "0032-281X")) by by_evaluation.
  split; [by_evaluation|]. split; [done|]. split; [done|].
  rewrite H1, H2. discriminate.
Qed.

(** ** The scan *)

Lemma stamp_idem (c p : string) (m : record) :
  stamp c p (stamp c p m) = stamp c p m.
Proof.
  apply map_eq. intros k. unfold stamp.
  rewrite !lookup_insert. by repeat case_decide.
Qed.

Lemma stamp_no_digit_key (c p : string) (m : record) :
  (∀ k, PyStr.isdigit k = true → m !! k = None) →
  ∀ k, PyStr.isdigit k = true → stamp c p m !! k = None.
Proof.
  intros Hm k Hk. rewrite stamp_lookup_other; [by apply Hm|..];
    by intros ->.
Qed.

Lemma derive_pid_stamp (c p : string) (m : record) :
  p ≠ "" → derive_pid (stamp c p m) = Ok (Some p).
Proof.
  intros Hp. unfold derive_pid, primary, stamp. rewrite lookup_insert_eq.
  simpl. rewrite lookup_singleton_eq. simpl. by destruct p.
Qed.

Lemma processing_date_stamp (dt : datetime) (c p : string) (m : record) :
  processing_date dt (stamp c p m) = processing_date dt m.
Proof. unfold processing_date. by rewrite stamp_lookup_other. Qed.

(** A call of [prepare_record] that raises leaves the record in a state
    on which the next call raises the same exception. *)
Lemma prepare_record_raises_again (dt : datetime) (c : string) (r r' : record)
    (e : exn) :
  prepare_record dt c r = (r', Raise e) →
  prepare_record dt c r' = (r', Raise e).
Proof.
  rewrite prepare_record_eq.
  destruct (derive_pid (renamed r)) as [pid|e0] eqn:Hpid.
  - unfold finish_record. destruct (truthy pid) eqn:Ht; [|done].
    apply truthy_Some in Ht as (p & -> & Hp). simpl.
    assert (Hagain : ∀ res,
      (match processing_date dt (stamp c p (renamed r)) with
       | Raise e1 => (stamp c p (renamed r), Raise e1)
       | Ok d =>
           match strptime_Ymd dt d with
           | None => (stamp c p (renamed r), Raise ValueError)
           | Some iso =>
               (decompose p (<["processing_date" := PStr iso]> (stamp c p (renamed r))),
                Ok (Some (decompose p (<["processing_date" := PStr iso]>
                                         (stamp c p (renamed r))))))
           end
       end) = res →
      res = (r', Raise e) →
      prepare_record dt c (stamp c p (renamed r)) = res ∧ r' = stamp c p (renamed r)).
    { intros res Hres Hr'. split.
      - rewrite prepare_record_eq, renamed_id.
        + rewrite derive_pid_stamp by done. unfold finish_record.
          assert (truthy (Some p) = true) as -> by (by apply truthy_Some; eexists).
          simpl. by rewrite stamp_idem.
        + apply stamp_no_digit_key. intros k. apply renamed_no_digit_key.
      - subst res. destruct (processing_date dt _) as [d|e1]; [|congruence].
        destruct (strptime_Ymd dt d); congruence. }
    intros H. destruct (Hagain _ eq_refl H) as [Hp' ->]. by rewrite Hp'.
  - intros [= <- <-]. by rewrite prepare_record_eq, renamed_renamed, Hpid.
Qed.

(** C6 (the defect).  When [prepare_record] raises on a record, the
    handler calls it again on the same record, the second call raises the
    same exception outside any [try], and the scan of the file ends there:
    after the [debug] line of the record nothing is logged, and the records
    that follow are not read. *)
Theorem scan_stops_on_error (dt : datetime) (c coll isofile : string)
    (issns : list string) (ndx : nat) (r r' : record) (rest : list record)
    (e : exn) :
  prepare_record dt c r = (r', Raise e) →
  scan_records dt c coll isofile issns ndx (r :: rest) =
    ([reading_log (S ndx) isofile], Some e).
Proof.
  intros H. cbn [scan_records]. rewrite H.
  by rewrite (prepare_record_raises_again _ _ _ _ _ H).
Qed.

(** A record with a malformed [v91], followed by a sound journal record:
    the scan ends with [ValueError] on the first. *)
Lemma scan_stops_on_error_example :
  scan_records (datetime_on "2020-01-31") "scl" "articles" "artigo.iso" [] 0
    [ {[ "880" := field "S0034-89101999000100001"; "91" := field "notadate" ]};
      {[ "400" := field "0034-8910" ]} ]
  = ([reading_log 1 "artigo.iso"], Some ValueError).
Proof.
  eapply scan_stops_on_error with
    (r' := stamp "scl" "S0034-89101999000100001"
             (renamed {[ "880" := field "S0034-89101999000100001";
                         "91" := field "notadate" ]})).
  by_evaluation.
Defined.

Lemma decompose_other_length (pid : string) (m : record) :
  String.length pid ≠ 9 → String.length pid ≠ 17 →
  String.length pid ≠ 23 → String.length pid ≠ 28 →
  decompose pid m = m.
Proof. intros. unfold decompose. by repeat case_decide. Qed.

(** The part of the behaviour of a record with a degenerate PID that is
    sound.  When the PID derived for a raw record has a length other than 9,
    17, 23 and 28 and the processing date parses, [prepare_record] returns
    the record with its stamps and without setting [journal], [issue] or
    [document], which stay as the raw record has them; and a scan without
    ISSN filter yields that record. *)
Lemma degenerate_pid_emitted (dt : datetime) (c : string) (r : record)
    (pid d iso : string) :
  derive_pid (renamed r) = Ok (Some pid) → pid ≠ "" →
  String.length pid ≠ 9 → String.length pid ≠ 17 →
  String.length pid ≠ 23 → String.length pid ≠ 28 →
  processing_date dt (renamed r) = Ok d →
  strptime_Ymd dt d = Some iso →
  let out := <["processing_date" := PStr iso]> (stamp c pid (renamed r)) in
  prepare_record dt c r = (out, Ok (Some out)) ∧
  out !! "journal" = r !! "journal" ∧
  out !! "issue" = r !! "issue" ∧
  out !! "document" = r !! "document" ∧
  ∀ coll isofile ndx rest,
    scan_records dt c coll isofile [] ndx (r :: rest) =
      (reading_log (S ndx) isofile :: Yield coll out
         :: (scan_records dt c coll isofile [] (S ndx) rest).1,
       (scan_records dt c coll isofile [] (S ndx) rest).2).
Proof.
  intros Hpid Hp H9 H17 H23 H28 Hd Hiso out.
  assert (Hprep : prepare_record dt c r = (out, Ok (Some out))).
  { rewrite prepare_record_eq, Hpid. unfold finish_record.
    assert (truthy (Some pid) = true) as -> by (by apply truthy_Some; eexists).
    simpl. rewrite processing_date_stamp, Hd, Hiso.
    by rewrite decompose_other_length. }
  assert (Hraw : ∀ k, k = "journal" ∨ k = "issue" ∨ k = "document" →
                      out !! k = r !! k).
  { intros k Hk. unfold out.
    rewrite lookup_insert_ne by (by destruct Hk as [->|[->| ->]]).
    rewrite stamp_lookup_other by (by destruct Hk as [->|[->| ->]]).
    apply renamed_lookup_plain; by destruct Hk as [->|[->| ->]]. }
  split; [done|]. rewrite !Hraw by auto. repeat split.
  intros. cbn [scan_records]. rewrite Hprep. simpl.
  by destruct (scan_records dt c coll isofile [] (S ndx) rest).
Qed.

(** A record whose PID has three characters, scanned without a filter. *)
Lemma degenerate_pid_emitted_example :
  let out := <["processing_date" := PStr "2020-01-31"]>
               (stamp "scl" "ABC" (renamed {[ "880" := field "ABC" ]})) in
  out !! "journal" = None ∧
  scan_records (datetime_on "2020-01-31") "scl" "journals" "title.iso" [] 0
    [ {[ "880" := field "ABC" ]} ]
  = ([reading_log 1 "title.iso"; Yield "journals" out], None).
Proof.
  intros out.
  destruct (degenerate_pid_emitted (datetime_on "2020-01-31") "scl"
              {[ "880" := field "ABC" ]} "ABC" "20200131" "2020-01-31")
    as (_ & Hj & _ & _ & Hscan); [by_evaluation..|].
  split; [exact Hj|]. apply Hscan.
Defined.

(** C7 (the defect).  A raw record whose derived PID has a length other
    than 9, 17, 23 and 28 is normalised by [prepare_record] into a record
    without [journal]; when an ISSN filter is supplied, the check
    [record['journal'] in issns] of the scan then raises [KeyError], outside
    any [try]: the record is not yielded, the scan of the file ends with
    that exception, and the records that follow are not read. *)
Theorem degenerate_pid_filter_raises (dt : datetime) (c : string) (r : record)
    (pid d iso : string) (issns : list string) (coll isofile : string)
    (ndx : nat) (rest : list record) :
  derive_pid (renamed r) = Ok (Some pid) → pid ≠ "" →
  String.length pid ≠ 9 → String.length pid ≠ 17 →
  String.length pid ≠ 23 → String.length pid ≠ 28 →
  processing_date dt (renamed r) = Ok d →
  strptime_Ymd dt d = Some iso →
  r !! "journal" = None →
  issns ≠ [] →
  let out := <["processing_date" := PStr iso]> (stamp c pid (renamed r)) in
  prepare_record dt c r = (out, Ok (Some out)) ∧
  out !! "journal" = None ∧
  filtered_out issns out = Raise KeyError ∧
  scan_records dt c coll isofile issns ndx (r :: rest) =
    ([reading_log (S ndx) isofile], Some KeyError).
Proof.
  intros Hpid Hp H9 H17 H23 H28 Hd Hiso Hraw Hne out.
  destruct (degenerate_pid_emitted dt c r pid d iso Hpid Hp H9 H17 H23 H28 Hd Hiso)
    as (Hprep & Hj & _).
  fold out in Hprep, Hj. rewrite Hraw in Hj.
  assert (Hf : filtered_out issns out = Raise KeyError).
  { unfold filtered_out. rewrite Hj. by destruct issns. }
  repeat split; try done.
  cbn [scan_records]. by rewrite Hprep, Hf.
Qed.

(** A record whose PID has three characters, followed by a sound journal
    record of the filter, scanned with that filter: the scan ends on the
    first record and the journal is never read. *)
Lemma degenerate_pid_filter_raises_example :
  scan_records (datetime_on "2020-01-31") "scl" "journals" "title.iso"
    ["0032-281X"] 0
    [ {[ "880" := field "ABC" ]}; {[ "400" := field "0032-281X" ]} ]
  = ([reading_log 1 "title.iso"], Some KeyError).
Proof.
  apply (degenerate_pid_filter_raises (datetime_on "2020-01-31") "scl"
           {[ "880" := field "ABC" ]} "ABC" "20200131" "2020-01-31"
           ["0032-281X"] "journals" "title.iso" 0
           [ {[ "400" := field "0032-281X" ]} ]); by_evaluation.
Defined.

(** The same file in a whole scan: [load_isis_records] ends with
    [KeyError] and has yielded nothing, where the journal record alone is
    yielded. *)
Lemma degenerate_pid_with_filter :
  load_isis_records (datetime_on "2020-01-31")
    (isis_of "scl" [ {[ "880" := field "ABC" ]}; {[ "400" := field "0032-281X" ]} ]
       [] [] []) "scl" ["0032-281X"]
  = ([Log INFO "Recording (%s) records for collection (%s)" ["journals"; "scl"];
      reading_log 1 "/app/../isos/scl/title.iso"],
     Some KeyError) ∧
  (load_isis_records (datetime_on "2020-01-31")
     (isis_of "scl" [ {[ "400" := field "0032-281X" ]} ] [] [] [])
     "scl" ["0032-281X"]).2 = None ∧
  length (yields (load_isis_records (datetime_on "2020-01-31")
                    (isis_of "scl" [ {[ "400" := field "0032-281X" ]} ] [] [] [])
                    "scl" ["0032-281X"]).1) = 1%nat.
Proof. split; [|split]; by_evaluation. Qed.

(** ** The ISSN filter *)




(** ** The remote loaders *)

Lemma queries_app (h h' : list event) : queries (h ++ h') = queries h ++ queries h'.
Proof. apply omap_app. Qed.

Lemma queries_logs {A : Type} (f : A → event) (l : list A) :
  (∀ a, ∃ lvl fmt args, f a = Log lvl fmt args) → queries (f <$> l) = [].
Proof.
  intros Hf. induction l as [|a l IH]; [done|]. simpl.
  destruct (Hf a) as (lvl & fmt & args & ->). exact IH.
Qed.

(** The listings of a loader are those of the ISSNs it was given, in
    order, up to the first listing that raises. *)
Lemma load_ids_queries_prefix (w : world) (e : entity) (c : string)
    (issns : list (option string)) :
  ∀ pids h, ∃ n,
    queries (load_ids w e c issns pids h).1 =
      queries h ++ ((λ issn, (e, c, issn)) <$> take n issns).
Proof.
  induction issns as [|issn issns IH]; intros pids h.
  - exists 0. simpl. by rewrite app_nil_r.
  - cbn [load_ids]. unfold mbind, M_bind, list_query, emit, raise. cbn [fst snd].
    destruct (rc_list w h e c issn) as [items [ex|]]; cbn [fst snd].
    + exists 1. rewrite !queries_app, queries_logs by eauto.
      simpl. by rewrite ?take_0, ?app_nil_r.
    + destruct (IH (pids ++ (key_of e <$> items))
                  ((h ++ [Listed e c issn])
                     ++ ((λ i, Log DEBUG (loading_id_fmt e) [key_of e i]) <$> items)))
        as [n Hn].
      exists (S n). rewrite Hn, !queries_app, queries_logs by eauto.
      simpl. by rewrite app_nil_r, <- app_assoc.
Qed.

(** A loader that returns has made the listing of every ISSN it was
    given. *)
Lemma load_ids_queries (w : world) (e : entity) (c : string)
    (issns : list (option string)) :
  ∀ pids h h' ids,
    load_ids w e c issns pids h = (h', Ok ids) →
    queries h' = queries h ++ ((λ issn, (e, c, issn)) <$> issns).
Proof.
  induction issns as [|issn issns IH]; intros pids h h' ids.
  - intros [= <- _]. simpl. by rewrite app_nil_r.
  - cbn [load_ids]. unfold mbind, M_bind, list_query, emit, raise. cbn [fst snd].
    destruct (rc_list w h e c issn) as [items [ex|]]; cbn [fst snd]; [done|].
    intros Hrest%IH. rewrite Hrest, !queries_app, queries_logs by eauto.
    simpl. by rewrite app_nil_r, <- app_assoc.
Qed.

Lemma load_articlemeta_ids_queries_prefix (w : world) (e : entity) (c : string)
    (issns : list string) (h : list event) :
  ∃ n, queries (load_articlemeta_ids w e c issns h).1 =
         queries h ++ ((λ issn, (e, c, issn)) <$> take n (issns_or_none issns)).
Proof.
  unfold load_articlemeta_ids, mbind, M_bind, log, emit. cbn [fst snd].
  destruct (load_ids_queries_prefix w e c (issns_or_none issns) []
              (h ++ [Log INFO (loading_fmt e) []])) as [n Hn].
  exists n. rewrite Hn, queries_app. simpl. by rewrite app_nil_r.
Qed.

Lemma load_articlemeta_ids_queries (w : world) (e : entity) (c : string)
    (issns : list string) (h h' : list event) (ids : list string) :
  load_articlemeta_ids w e c issns h = (h', Ok ids) →
  queries h' = queries h ++ ((λ issn, (e, c, issn)) <$> issns_or_none issns).
Proof.
  unfold load_articlemeta_ids, mbind, M_bind, log, emit. cbn [fst snd].
  intros Hids%load_ids_queries. rewrite Hids, queries_app.
  simpl. by rewrite app_nil_r.
Qed.

(** Without a filter: a single listing, with no ISSN, whether it returns
    or raises. *)
Lemma load_articlemeta_ids_unfiltered (w : world) (e : entity) (c : string)
    (h : list event) :
  queries (load_articlemeta_ids w e c [] h).1 = queries h ++ [(e, c, None)].
Proof.
  unfold load_articlemeta_ids, mbind, M_bind, log, emit. cbn [fst snd].
  cbn [issns_or_none load_ids].
  unfold mbind, M_bind, list_query, emit, raise. cbn [fst snd].
  destruct (rc_list w _ e c None) as [items [ex|]];
    unfold mret, M_ret; cbn [fst snd];
    rewrite !queries_app, queries_logs by eauto; simpl;
    by rewrite !app_nil_r.
Qed.




(** The scan of the example: the first journal is yielded, the second is
    not. *)
Lemma issn_filter_scan :
  omap (λ ev, match ev with Yield coll r => Some (coll, r !! "journal") | _ => None end)
    (load_isis_records (datetime_on "2020-01-31")
       (isis_of "scl" [ {[ "400" := field "0032-281X" ]};
                        {[ "400" := field "0034-8910" ]} ] [] [] [])
       "scl" ["0032-281X"]).1
  = [("journals", Some (PStr "0032-281X"))].
Proof. by_evaluation. Qed.

(** ** The executor *)


Section quiet.
Context {B : Type} (f : event → option B).

Lemma quiet_ret {A : Type} (a : A) : quiet f (mret a).
Proof. by intros h. Qed.

Lemma quiet_raise {A : Type} (e : exn) : quiet f (raise (A := A) e).
Proof. by intros h. Qed.

Lemma quiet_bind {A C : Type} (m : M A) (k : A → M C) :
  quiet f m → (∀ a, quiet f (k a)) → quiet f (m ≫= k).
Proof.
  intros Hm Hk h. unfold mbind, M_bind. specialize (Hm h).
  destruct (m h) as [h1 [a|e]]; simpl in *; [|done].
  by rewrite Hk.
Qed.

Lemma quiet_emit (evs : list event) :
  Forall (λ ev, f ev = None) evs → quiet f (emit evs).
Proof.
  intros Hevs h. unfold emit. simpl. rewrite omap_app.
  assert (omap f evs = []) as ->; [|by rewrite app_nil_r].
  induction Hevs as [|ev evs Hev _ IH]; [done|]. simpl. by rewrite Hev.
Qed.

Lemma quiet_log (lvl : level) (fmt : string) (args : list string) :
  f (Log lvl fmt args) = None → quiet f (log lvl fmt args).
Proof. intros Hf. apply quiet_emit. by constructor. Qed.

Lemma quiet_step (ev : event) :
  f ev = None → ∀ h, omap f (h ++ [ev]) = omap f h.
Proof. intros Hf h. rewrite omap_app. simpl. by rewrite Hf, app_nil_r. Qed.
End quiet.

Lemma add_items_quiet {B : Type} (f : event → option B) (w : world) (e : entity)
    (total : nat) (items : list string) :
  (∀ lvl fmt args, f (Log lvl fmt args) = None) →
  (∀ c code res, f (Loaded e c code res) = None) →
  (∀ meta res, f (Added e meta res) = None) →
  ∀ ndx, quiet f (add_items w e total ndx items).
Proof.
  intros Hlog Hload Hadd. induction items as [|key rest IH]; intros ndx.
  - apply quiet_ret.
  - cbn [add_items].
    destruct (PyStr.split "_" key) as [|c [|code more]]; try apply quiet_raise.
    apply quiet_bind.
    { intros h. unfold load. simpl. by apply quiet_step. }
    intros [[meta|]|ex]; [|by apply quiet_bind; [apply quiet_log|]..].
    apply quiet_bind.
    { intros h. unfold add. simpl. by apply quiet_step. }
    intros [[]|ex]; [by apply quiet_bind; [apply quiet_log|]|].
    destruct ex; try apply quiet_raise.
    by apply quiet_bind; [apply quiet_log|].
Qed.

Lemma add_phase_quiet {B : Type} (f : event → option B) (w : world) (e : entity)
    (new : list string) :
  (∀ lvl fmt args, f (Log lvl fmt args) = None) →
  (∀ c code res, f (Loaded e c code res) = None) →
  (∀ meta res, f (Added e meta res) = None) →
  quiet f (add_phase w e new).
Proof.
  intros. unfold add_phase.
  apply quiet_bind; [by apply quiet_log|]. intros _. by apply add_items_quiet.
Qed.

Lemma remove_items_quiet {B : Type} (f : event → option B) (w : world) (e : entity)
    (items : list string) :
  (∀ lvl fmt args, f (Log lvl fmt args) = None) →
  (∀ code c res, f (Deleted e code c res) = None) →
  quiet f (remove_items w e items).
Proof.
  intros Hlog Hdel. induction items as [|key rest IH].
  - apply quiet_ret.
  - cbn [remove_items].
    destruct (PyStr.split "_" key) as [|c [|code more]]; try apply quiet_raise.
    apply quiet_bind.
    { intros h. unfold delete_remote. simpl. by apply quiet_step. }
    intros [[]|ex]; [done|].
    destruct ex; try apply quiet_raise.
    by apply quiet_bind; [apply quiet_log|].
Qed.

(** A removal phase makes no call for another entity type. *)
Lemma remove_phase_quiet {B : Type} (f : event → option B) (w : world) (e : entity)
    (items : list string) :
  (∀ lvl fmt args, f (Log lvl fmt args) = None) →
  (∀ code c res, f (Deleted e code c res) = None) →
  quiet f (remove_phase w e items).
Proof.
  intros. unfold remove_phase.
  apply quiet_bind; [by apply quiet_log|]. intros _.
  case_decide; [by apply quiet_log | by apply remove_items_quiet].
Qed.


Lemma delete_call_other (e e' : entity) (code c : string) (res : result unit) :
  e' ≠ e → delete_call e (Deleted e' code c res) = None.
Proof. intros. simpl. by rewrite decide_False. Qed.





(** ** What comes before the executor *)

Lemma scan_records_events (dt : datetime) (c coll isofile : string)
    (issns : list string) (records : list record) :
  ∀ ndx, Forall scan_event (scan_records dt c coll isofile issns ndx records).1.
Proof.
  induction records as [|r rest IH]; intros ndx; [by constructor|].
  cbn [scan_records]. specialize (IH (S ndx)).
  destruct (scan_records dt c coll isofile issns (S ndx) rest) as [evs st].
  destruct (prepare_record dt c r) as [r1 [[out|]|e]].
  - destruct (filtered_out issns out) as [[]|e]; simpl; repeat constructor; done.
  - simpl. by constructor.
  - destruct (prepare_record dt c r1) as [r2 [v|e']]; simpl;
      repeat constructor; done.
Qed.

Lemma scan_databases_events (dt : datetime) (src : isis) (c : string)
    (issns : list string) (dbs : list (string * string)) :
  Forall scan_event (scan_databases dt src c issns dbs).1.
Proof.
  induction dbs as [|[iso coll] dbs IH]; [by constructor|].
  cbn [scan_databases].
  destruct (iso_records src _) as [records|]; [|by repeat constructor].
  pose proof (scan_records_events dt c coll (isofile_of src c iso) issns records 0)
    as Hrec.
  destruct (scan_records dt c coll _ issns 0 records) as [evs [e|]].
  - by constructor.
  - destruct (scan_databases dt src c issns dbs) as [evs' st]. simpl.
    constructor; [done|]. by apply Forall_app.
Qed.

Section before_execute.
Context {B : Type} (f : event → option B).
Hypothesis f_log : ∀ lvl fmt args, f (Log lvl fmt args) = None.
Hypothesis f_yield : ∀ coll r, f (Yield coll r) = None.
Hypothesis f_listed : ∀ e c issn, f (Listed e c issn) = None.


Lemma write_records_quiet (dt : datetime) (src : isis) (c : string)
    (issns : list string) :
  quiet f (write_records dt src c issns).
Proof.
  intros h. unfold write_records, load_isis_records.
  pose proof (scan_databases_events dt src c issns DATABASES) as Hevs.
  destruct (scan_databases dt src c issns DATABASES) as [evs [e|]]; simpl in *.
  all: rewrite omap_app.
  all: assert (omap f evs = []) as ->; [|by rewrite app_nil_r].
  all: induction Hevs as [|ev evs Hev _ IH]; [done|]; simpl.
  all: by destruct ev; try done; rewrite ?f_log, ?f_yield.
Qed.

End before_execute.




(** ** The addition phase *)

Lemma add_items_failed_load (w : world) (e : entity) (total ndx : nat)
    (key : string) (rest : list string) (h : list event)
    (c code : string) (more : list string) :
  PyStr.split "_" key = c :: code :: more →
  (∀ meta, ctrl_load w h e c code ≠ Ok (Some meta)) →
  add_items w e total ndx (key :: rest) h =
    add_items w e total (S ndx) rest
      (h ++ [Loaded e c code (ctrl_load w h e c code)]
         ++ [Log ERROR (load_failed_fmt e) [PyStr.join "_" [c; code]]]).
Proof.
  intros Hsplit Hres. cbn [add_items]. rewrite Hsplit.
  unfold mbind, M_bind, load, log, emit. cbn [fst snd].
  rewrite app_assoc.
  by destruct (ctrl_load w h e c code) as [[meta|]|ex]; [destruct (Hres meta)|..].
Qed.

Lemma add_items_server_error (w : world) (e : entity) (total ndx : nat)
    (key : string) (rest : list string) (h : list event)
    (c code meta : string) (more : list string) :
  PyStr.split "_" key = c :: code :: more →
  ctrl_load w h e c code = Ok (Some meta) →
  rc_add w (h ++ [Loaded e c code (Ok (Some meta))]) e meta = Raise ServerError →
  add_items w e total ndx (key :: rest) h =
    add_items w e total (S ndx) rest
      (h ++ [Loaded e c code (Ok (Some meta))]
         ++ [Added e meta (Raise ServerError)]
         ++ [Log ERROR (add_failed_fmt e) [PyStr.join "_" [c; code]]]).
Proof.
  intros Hsplit Hres Hadd. cbn [add_items]. rewrite Hsplit.
  unfold mbind, M_bind, load, add, log, emit. cbn [fst snd].
  rewrite Hres. cbn [fst snd]. rewrite Hadd. by rewrite !app_assoc.
Qed.





(** The trace of that batch. *)
Lemma addition_isolation_trace :
  add_phase three_documents Document
    ["scl_D1_20200131"; "scl_D2_20200131"; "scl_D3_20200131"] []
  = ([Log INFO "Documents being included into articlemeta (%d)" ["3"];
      Loaded Document "scl" "D1" (Raise (Exception "OperationalError"));
      Log ERROR "Fail to load document into Articlemeta (%s)" ["scl_D1"];
      Loaded Document "scl" "D2" (Ok (Some "{D2}"));
      Added Document "{D2}" (Raise ServerError);
      Log ERROR "Fail to load document into Articlemeta (%s)" ["scl_D2"];
      Loaded Document "scl" "D3" (Ok (Some "{D3}"));
      Added Document "{D3}" (Ok ());
      Log DEBUG "Document (%d, %d) loaded into Articlemeta (%s)" ["3"; "3"; "scl_D3"]],
     Ok ()).
Proof. by_evaluation. Qed.


(** A key without [_] has no [item[1]]: the [IndexError] of the [load]
    line is caught by the bare [except], whose handler evaluates [item[1]]
    again, and the phase ends with [IndexError]. *)
Lemma addition_stops_on_short_key :
  add_phase three_documents Document ["D1"; "scl_D3_20200131"] []
  = ([Log INFO "Documents being included into articlemeta (%d)" ["2"]],
     Raise IndexError).
Proof. by_evaluation. Qed.

(** ** Sanity of the string and date models *)

(** ["%04d"] writes a number below 10000 with exactly four digits that
    spell it. *)
Lemma format_04d_four_digits (n : N) :
  (n < 10000)%N →
  String.length (PyStr.format_04d n) = 4 ∧
  PyStr.all_digits (PyStr.format_04d n) = true ∧
  PyStr.int (PyStr.format_04d n) = n.
Proof.
  intros Hn.
  set (ok := λ k : nat,
         let s := PyStr.format_04d (N.of_nat k) in
         ((String.length s =? 4)%nat && PyStr.all_digits s
            && (PyStr.int s =? N.of_nat k)%N)).
  assert (Hall : forallb ok (seq 0 (100 * 100)) = true) by (vm_compute; reflexivity).
  rewrite forallb_forall in Hall.
  assert (Hin : In (N.to_nat n) (seq 0 (100 * 100))) by (apply in_seq; lia).
  apply Hall in Hin. unfold ok in Hin. rewrite N2Nat.id in Hin.
  apply andb_true_iff in Hin as [Hin H3].
  apply andb_true_iff in Hin as [H1 H2].
  apply Nat.eqb_eq in H1. apply N.eqb_eq in H3. done.
Qed.

Lemma format_04d_long : PyStr.format_04d 12345 = "12345".
Proof. reflexivity. Qed.

Lemma parse_Ymd_examples :
  Strptime.parse_Ymd "20200131" = Some "2020-01-31" ∧
  Strptime.parse_Ymd "2020131" = Some "2020-01-31" ∧
  Strptime.parse_Ymd "202011" = Some "2020-01-01" ∧
  Strptime.parse_Ymd "20200229" = Some "2020-02-29" ∧
  Strptime.parse_Ymd "20210229" = None ∧
  Strptime.parse_Ymd "202001311" = None ∧
  Strptime.parse_Ymd "00000101" = None ∧
  Strptime.parse_Ymd "notadate" = None.
Proof. repeat split; by_evaluation. Qed.

Lemma split_join_examples :
  PyStr.split "_" "scl_S0034-89101999000100001_20200131"
    = ["scl"; "S0034-89101999000100001"; "20200131"] ∧
  PyStr.split "_" "" = [""] ∧
  PyStr.split "_" "a_" = ["a"; ""] ∧
  PyStr.join "_" ["scl"; "0032-281X"] = "scl_0032-281X" ∧
  PyStr.remove_char "-" "2020-01-31" = "20200131".
Proof. repeat split; by_evaluation. Qed.

(** * Further properties *)

(** ** The renaming loop and the stamps of [prepare_record] *)

(** The renaming loop (lines 108-112) never raises.  It leaves no key made
    of digits; the field of a numeric tag [t] ends up under ["v" + t], also
    when the record already had that key; and a key that is not made of digits
    and is not the ["v"]-form of a numeric tag of the record keeps its
    value. *)
Theorem renaming_loop (r : record) :
  rename_tags (tuple_of r) r = (renamed r, Ok ()) ∧
  (∀ t, PyStr.isdigit t = true → renamed r !! t = None) ∧
  (∀ t v, PyStr.isdigit t = true → r !! t = Some v →
     renamed r !! ("v" +:+ t) = Some v) ∧
  (∀ k, PyStr.isdigit k = false →
     (∀ t, k = "v" +:+ t → PyStr.isdigit t = true → r !! t = None) →
     renamed r !! k = r !! k).
Proof.
  destruct (rename_tags_tuple r) as [Hrun Hlook].
  split; [done|]. split; [|split].
  - intros t Ht. by rewrite Hlook, Ht.
  - intros t v Ht Hv. rewrite Hlook, isdigit_v.
    assert (strip_v ("v" +:+ t) = Some t) as -> by (by apply strip_v_Some).
    by rewrite Ht, Hv.
  - intros k Hk Hfree. rewrite Hlook, Hk.
    destruct (strip_v k) as [t|] eqn:Hs; [|done].
    apply strip_v_Some in Hs.
    destruct (PyStr.isdigit t) eqn:Ht; [|done]. by rewrite (Hfree t).
Qed.

(** A record with tag [35], a key [v35] of its own and a key [mfn]. *)
Lemma renaming_loop_example :
  let r : record :=
    {[ "35" := field "0032-281X"; "v35" := field "old"; "mfn" := PStr "7" ]} in
  renamed r !! "35" = None ∧
  renamed r !! "v35" = Some (field "0032-281X") ∧
  renamed r !! "mfn" = Some (PStr "7").
Proof.
  intros r. destruct (renaming_loop r) as (_ & Hgone & Hv & Hother).
  split; [by apply Hgone|]. split.
  - apply (Hv "35"); [reflexivity | by_evaluation].
  - rewrite Hother; [by_evaluation | reflexivity |].
    intros t [=].
Defined.

Lemma decompose_lookup_other (pid k : string) (m : record) :
  k ≠ "journal" → k ≠ "issue" → k ≠ "document" →
  decompose pid m !! k = m !! k.
Proof.
  intros. unfold decompose.
  repeat case_decide; by rewrite ?lookup_insert_ne.
Qed.

Lemma decompose_idem (pid : string) (m : record) :
  decompose pid (decompose pid m) = decompose pid m.
Proof.
  apply map_eq. intros k. unfold decompose.
  repeat case_decide; try lia; rewrite ?lookup_insert; by repeat case_decide.
Qed.

Lemma stamp_lookup (c pid : string) (m : record) :
  stamp c pid m !! "v880" = Some (field pid) ∧
  stamp c pid m !! "code" = Some (PStr pid) ∧
  stamp c pid m !! "collection" = Some (PStr c) ∧
  stamp c pid m !! "v992" = Some (field c).
Proof. unfold stamp. by simplify_map_eq. Qed.

Lemma primary_field (m : record) (tag v : string) :
  m !! tag = Some (field v) → primary m tag = Ok (Some v).
Proof.
  intros H. unfold primary. rewrite H. simpl. by rewrite lookup_singleton_eq.
Qed.

(** The record [prepare_record] returns (lines 119-124): its PID is not
    empty and is both under [code] and the primary value of [v880]; the
    collection is both under [collection] and the primary value of [v992];
    [processing_date] holds the date [strptime] produced; and the record
    returned is the record object the call worked on. *)
Theorem normalized_record_stamps (dt : datetime) (c : string) (r r' out : record) :
  prepare_record dt c r = (r', Ok (Some out)) →
  r' = out ∧
  ∃ pid d iso,
    pid ≠ "" ∧
    derive_pid (renamed r) = Ok (Some pid) ∧
    out !! "code" = Some (PStr pid) ∧
    primary out "v880" = Ok (Some pid) ∧
    out !! "collection" = Some (PStr c) ∧
    primary out "v992" = Ok (Some c) ∧
    processing_date dt (renamed r) = Ok d ∧
    strptime_Ymd dt d = Some iso ∧
    out !! "processing_date" = Some (PStr iso).
Proof.
  rewrite prepare_record_eq.
  destruct (derive_pid (renamed r)) as [pid0|e] eqn:Hpid; [|done].
  unfold finish_record. destruct (truthy pid0) eqn:Ht; [|done].
  apply truthy_Some in Ht as (pid & -> & Hp). simpl.
  rewrite processing_date_stamp.
  destruct (processing_date dt (renamed r)) as [d|e] eqn:Hd; [|done].
  destruct (strptime_Ymd dt d) as [iso|] eqn:Hiso; [|done].
  intros [= <- <-]. split; [done|]. exists pid, d, iso.
  destruct (stamp_lookup c pid (renamed r)) as (H880 & Hcode & Hcoll & H992).
  repeat split; try done.
  - rewrite decompose_lookup_other, lookup_insert_ne by done. exact Hcode.
  - apply primary_field.
    rewrite decompose_lookup_other, lookup_insert_ne by done. exact H880.
  - rewrite decompose_lookup_other, lookup_insert_ne by done. exact Hcoll.
  - apply primary_field.
    rewrite decompose_lookup_other, lookup_insert_ne by done. exact H992.
  - rewrite decompose_lookup_other by done. apply lookup_insert_eq.
Qed.

Lemma normalized_record_stamps_example :
  let out := (prepare_record (datetime_on "2020-01-31") "scl"
                {[ "400" := field "0032-281X"; "91" := field "2019-12-24" ]}).1 in
  ∃ pid d iso,
    pid ≠ "" ∧
    derive_pid (renamed {[ "400" := field "0032-281X"; "91" := field "2019-12-24" ]})
      = Ok (Some pid) ∧
    out !! "code" = Some (PStr pid) ∧
    primary out "v880" = Ok (Some pid) ∧
    out !! "collection" = Some (PStr "scl") ∧
    primary out "v992" = Ok (Some "scl") ∧
    processing_date (datetime_on "2020-01-31")
      (renamed {[ "400" := field "0032-281X"; "91" := field "2019-12-24" ]}) = Ok d ∧
    strptime_Ymd (datetime_on "2020-01-31") d = Some iso ∧
    out !! "processing_date" = Some (PStr iso).
Proof.
  intros out.
  apply (normalized_record_stamps (datetime_on "2020-01-31") "scl"
           {[ "400" := field "0032-281X"; "91" := field "2019-12-24" ]} out out).
  by_evaluation.
Defined.

Lemma normalized_record_stamps_aux (dt : datetime) (c : string) (r r' out : record) :
  prepare_record dt c r = (r', Ok (Some out)) →
  r' = out ∧
  ∃ pid d iso,
    pid ≠ "" ∧
    derive_pid (renamed r) = Ok (Some pid) ∧
    out !! "code" = Some (PStr pid) ∧
    out !! "v880" = Some (field pid) ∧
    out !! "collection" = Some (PStr c) ∧
    out !! "v992" = Some (field c) ∧
    processing_date dt (renamed r) = Ok d ∧
    strptime_Ymd dt d = Some iso ∧
    out !! "processing_date" = Some (PStr iso) ∧
    out = decompose pid (<["processing_date" := PStr iso]> (stamp c pid (renamed r))).
Proof.
  rewrite prepare_record_eq.
  destruct (derive_pid (renamed r)) as [pid0|e] eqn:Hpid; [|done].
  unfold finish_record. destruct (truthy pid0) eqn:Ht; [|done].
  apply truthy_Some in Ht as (pid & -> & Hp). simpl.
  rewrite processing_date_stamp.
  destruct (processing_date dt (renamed r)) as [d|e] eqn:Hd; [|done].
  destruct (strptime_Ymd dt d) as [iso|] eqn:Hiso; [|done].
  intros [= <- <-]. split; [done|]. exists pid, d, iso.
  destruct (stamp_lookup c pid (renamed r)) as (H880 & Hcode & Hcoll & H992).
  repeat split; try done.
  - rewrite decompose_lookup_other, lookup_insert_ne by done. exact Hcode.
  - rewrite decompose_lookup_other, lookup_insert_ne by done. exact H880.
  - rewrite decompose_lookup_other, lookup_insert_ne by done. exact Hcoll.
  - rewrite decompose_lookup_other, lookup_insert_ne by done. exact H992.
  - rewrite decompose_lookup_other by done. apply lookup_insert_eq.
Qed.

(** What [prepare_record] leaves, in a record it returns, under a key it
    does not write. *)
Lemma normalized_lookup_other (dt : datetime) (c : string) (r r' out : record)
    (k : string) :
  prepare_record dt c r = (r', Ok (Some out)) →
  k ≠ "v880" → k ≠ "code" → k ≠ "collection" → k ≠ "v992" →
  k ≠ "processing_date" →
  k ≠ "journal" → k ≠ "issue" → k ≠ "document" →
  out !! k = renamed r !! k.
Proof.
  rewrite prepare_record_eq. intros Hprep.
  destruct (derive_pid (renamed r)) as [pid0|e]; [|done].
  apply finish_record_Some in Hprep as (p & iso & _ & _ & _ & ->). intros.
  by rewrite decompose_lookup_other, lookup_insert_ne, stamp_lookup_other.
Qed.

(** Normalisation keeps the ISIS fields: in a record [prepare_record]
    returns, the field of every numeric tag [t] other than [880] and [992]
    is under ["v" + t], and nothing is left under [t]. *)
Theorem fields_preserved (dt : datetime) (c : string) (r r' out : record)
    (t : string) (v : pyval) :
  prepare_record dt c r = (r', Ok (Some out)) →
  PyStr.isdigit t = true → t ≠ "880" → t ≠ "992" →
  r !! t = Some v →
  out !! ("v" +:+ t) = Some v ∧ out !! t = None.
Proof.
  intros Hprep Ht H880 H992 Hv.
  destruct (rename_tags_tuple r) as [_ Hlook]. split.
  - rewrite (normalized_lookup_other _ _ _ _ _ _ Hprep);
      try (by intros [=]); try (by intros ->%v_inj).
    rewrite Hlook, isdigit_v.
    assert (strip_v ("v" +:+ t) = Some t) as -> by (by apply strip_v_Some).
    by rewrite Ht, Hv.
  - rewrite (normalized_lookup_other _ _ _ _ _ _ Hprep);
      try (by intros ->).
    by rewrite Hlook, Ht.
Qed.

Lemma fields_preserved_example :
  let out := (prepare_record (datetime_on "2020-01-31") "scl"
                {[ "400" := field "0032-281X"; "100" := field "Revista" ]}).1 in
  out !! "v100" = Some (field "Revista") ∧ out !! "100" = None.
Proof.
  intros out.
  apply (fields_preserved (datetime_on "2020-01-31") "scl"
           {[ "400" := field "0032-281X"; "100" := field "Revista" ]} out out "100");
    try by_evaluation; reflexivity.
Defined.

(** Calling [prepare_record] again on the record object a call has worked
    on, with the same collection and on the same day, returns or raises the
    same and leaves the record as it is: a returned record is a fixed point,
    a dropped record is dropped again, a failure fails again. *)
Theorem prepare_record_idempotent (dt : datetime) (c : string) (r r' : record)
    (res : result (option record)) :
  prepare_record dt c r = (r', res) →
  prepare_record dt c r' = (r', res).
Proof.
  intros Hprep. destruct res as [[out|]|e].
  - pose proof Hprep as Hother.
    destruct (normalized_record_stamps_aux dt c r r' out Hprep)
      as (-> & pid & d & iso & Hp & Hpid & Hcode & H880 & Hcoll & H992 & Hd & Hiso & Hpd & Hout).
    assert (Hnodigit : ∀ k, PyStr.isdigit k = true → out !! k = None).
    { intros k Hk.
      rewrite (normalized_lookup_other _ _ _ _ _ k Hprep) by (by intros ->).
      by apply renamed_no_digit_key. }
    rewrite prepare_record_eq, (renamed_id _ Hnodigit).
    assert (derive_pid out = Ok (Some pid)) as ->.
    { unfold derive_pid. rewrite (primary_field _ _ _ H880). simpl.
      by destruct pid. }
    unfold finish_record.
    assert (truthy (Some pid) = true) as -> by (by apply truthy_Some; eexists).
    simpl.
    assert (stamp c pid out = out) as ->.
    { apply map_eq. intros k. unfold stamp. rewrite !lookup_insert.
      repeat case_decide; by subst. }
    assert (processing_date dt out = Ok d) as ->.
    { rewrite <- Hd. unfold processing_date.
      by rewrite (normalized_lookup_other _ _ _ _ _ "v91" Hprep). }
    rewrite Hiso, (insert_id out "processing_date") by done.
    by rewrite Hout, decompose_idem.
  - rewrite prepare_record_eq in Hprep.
    destruct (derive_pid (renamed r)) as [pid|e] eqn:Hpid; [|done].
    assert (truthy pid = false) as Hfalsy.
    { apply (finish_record_None dt c pid (renamed r)). by rewrite Hprep. }
    revert Hprep. unfold finish_record. rewrite Hfalsy. simpl.
    intros [= <-]. rewrite prepare_record_eq, renamed_renamed, Hpid.
    unfold finish_record. by rewrite Hfalsy.
  - by apply prepare_record_raises_again with (r := r).
Qed.

Lemma prepare_record_idempotent_example :
  let out := (prepare_record (datetime_on "2020-01-31") "scl"
                {[ "880" := field "S0034-89101999000100001";
                   "91" := field "2019-12-24" ]}).1 in
  prepare_record (datetime_on "2020-01-31") "scl" out = (out, Ok (Some out)).
Proof.
  intros out.
  apply (prepare_record_idempotent (datetime_on "2020-01-31") "scl"
           {[ "880" := field "S0034-89101999000100001";
              "91" := field "2019-12-24" ]}).
  by_evaluation.
Defined.

(** ** The shape of an issue PID *)

Lemma all_digits_app (a b : string) :
  PyStr.all_digits (a +:+ b) = PyStr.all_digits a && PyStr.all_digits b.
Proof.
  induction a as [|x a IH]; simpl; [by destruct b|].
  by rewrite IH, andb_assoc.
Qed.

Lemma all_digits_zeros (n : nat) : PyStr.all_digits (PyStr.zeros n) = true.
Proof. induction n; [done|]. simpl. exact IHn. Qed.

Lemma all_digits_str_of_int (n : N) :
  PyStr.all_digits (PyStr.str_of_int n) = true.
Proof.
  unfold PyStr.str_of_int, NilZero.string_of_uint.
  assert (H : ∀ d, PyStr.all_digits (NilEmpty.string_of_uint d) = true).
  { induction d; simpl; done. }
  destruct (N.to_uint n); try apply H. done.
Qed.

Lemma all_digits_format_04d (n : N) :
  PyStr.all_digits (PyStr.format_04d n) = true.
Proof.
  unfold PyStr.format_04d.
  by rewrite all_digits_app, all_digits_zeros, all_digits_str_of_int.
Qed.

(** The value of [issue_pid] in the model, where [int] converts a run of
    digits of any length. *)
Lemma issue_pid_value (r : record) (issn v36 : string) :
  primary r "v35" = Ok (Some issn) →
  primary r "v36" = Ok (Some v36) →
  ∃ order,
    issue_pid r = Ok (Some (issn +:+ PyStr.slice v36 0 4 +:+ order)) ∧
    (4 ≤ String.length order)%nat ∧
    PyStr.all_digits order = true.
Proof.
  intros H35 H36. unfold issue_pid, issue_pid_try. rewrite H35, H36. simpl.
  eexists. split; [done|].
  split; [apply length_format_04d | apply all_digits_format_04d].
Qed.

(** Whatever strings the primary values of [v35] and [v36] are, also a
    [v36] of fewer than four characters or without digits after them, as
    long as the run of digits that follows the first four characters of
    [v36] has at most 4300 digits, [issue_pid] returns: the [v35] value, then
    [v36[0:4]], then four or more decimal digits.  The bound is the length
    up to which [int] converts a string of decimal digits in every version
    of the interpreter; on a longer run recent versions raise [ValueError],
    which [issue_pid] does not catch, and the model of [int], which has no
    limit, says nothing of it. *)
Theorem issue_pid_on_strings (r : record) (issn v36 : string) :
  primary r "v35" = Ok (Some issn) →
  primary r "v36" = Ok (Some v36) →
  (String.length (PyStr.match_leading_digits (PyStr.slice_from v36 4)) ≤ 4300)%nat →
  ∃ order,
    issue_pid r = Ok (Some (issn +:+ PyStr.slice v36 0 4 +:+ order)) ∧
    (4 ≤ String.length order)%nat ∧
    PyStr.all_digits order = true.
Proof. intros H35 H36 _. by apply issue_pid_value. Qed.

(** A [v36] of two characters. *)
Lemma issue_pid_on_strings_example :
  ∃ order,
    issue_pid {[ "v35" := field "0032-281X"; "v36" := field "20" ]}
      = Ok (Some ("0032-281X" +:+ "20" +:+ order)) ∧
    (4 ≤ String.length order)%nat ∧
    PyStr.all_digits order = true.
Proof.
  apply (issue_pid_on_strings {[ "v35" := field "0032-281X"; "v36" := field "20" ]}
           "0032-281X" "20"); by_evaluation.
Defined.

(** An issue record: when [v880] gives no PID, [v35] is an ISSN of nine
    characters, [v36] has a value and the PID of the returned record has 17
    characters, that PID is the computed issue PID, [journal] is the [v35]
    value and [issue] is the PID. *)
Theorem issue_record_journal (dt : datetime) (c : string) (r r' out : record)
    (v880 : option string) (issn v36 pid : string) :
  prepare_record dt c r = (r', Ok (Some out)) →
  primary (renamed r) "v880" = Ok v880 → truthy v880 = false →
  primary (renamed r) "v35" = Ok (Some issn) → String.length issn = 9 →
  primary (renamed r) "v36" = Ok (Some v36) →
  out !! "code" = Some (PStr pid) → String.length pid = 17 →
  issue_pid (renamed r) = Ok (Some pid) ∧
  out !! "journal" = Some (PStr issn) ∧
  out !! "issue" = Some (PStr pid).
Proof.
  intros Hprep H880 Hfalsy H35 Hlen H36 Hcode Hpid.
  destruct (normalized_record_stamps_aux dt c r r' out Hprep)
    as (_ & pid' & d & iso & _ & Hderive & Hcode' & _ & _ & _ & _ & _ & _ & Hout).
  assert (pid' = pid) as -> by congruence.
  destruct (issue_pid_value _ _ _ H35 H36) as (order & Hissue & Horder & _).
  assert (truthy (Some (issn +:+ PyStr.slice v36 0 4 +:+ order)) = true) as Ht.
  { apply truthy_Some. eexists. split; [done|]. intros Hempty.
    apply (f_equal String.length) in Hempty. rewrite length_app in Hempty.
    simpl in Hempty. lia. }
  assert (Hpid' : issn +:+ PyStr.slice v36 0 4 +:+ order = pid).
  { rewrite (derive_pid_falsy_v880 _ _ H880 Hfalsy), Hissue in Hderive.
    unfold mbind, result_bind in Hderive. rewrite Ht in Hderive.
    by injection Hderive. }
  split; [by rewrite Hissue, Hpid'|].
  destruct (decompose_lookup pid
              (<["processing_date" := PStr iso]> (stamp c pid (renamed r))))
    as (Hj & Hi & _).
  rewrite <- Hout in Hj, Hi. rewrite Hj, Hi.
  repeat case_decide; try lia. split; [|done].
  by rewrite <- Hpid', (slice_0_app _ _ _ Hlen).
Qed.

Lemma issue_record_journal_example :
  let out := (prepare_record (datetime_on "2020-01-31") "scl"
                {[ "35" := field "0032-281X"; "36" := field "20023" ]}).1 in
  issue_pid (renamed {[ "35" := field "0032-281X"; "36" := field "20023" ]})
    = Ok (Some "0032-281X20020003") ∧
  out !! "journal" = Some (PStr "0032-281X") ∧
  out !! "issue" = Some (PStr "0032-281X20020003").
Proof.
  intros out.
  apply (issue_record_journal (datetime_on "2020-01-31") "scl"
           {[ "35" := field "0032-281X"; "36" := field "20023" ]} out out
           None "0032-281X" "20023" "0032-281X20020003");
    try by_evaluation; reflexivity.
Defined.

(** ** Identifier keys *)

Lemma split_no_sep (c : ascii) (a : string) :
  has_char c a = false → PyStr.split c a = [a].
Proof.
  induction a as [|x a IH]; [done|]. simpl.
  intros [Hx Ha]%orb_false_iff. by rewrite Hx, IH.
Qed.

Lemma split_app_sep (c : ascii) (a b : string) :
  has_char c a = false →
  PyStr.split c (a +:+ String c b) = a :: PyStr.split c b.
Proof.
  induction a as [|x a IH]; simpl.
  - intros _. by rewrite Ascii.eqb_refl.
  - intros [Hx Ha]%orb_false_iff. by rewrite Hx, IH.
Qed.

Lemma split_underscore (a b : string) :
  has_char "_" a = false →
  PyStr.split "_" (a +:+ "_" +:+ b) = a :: PyStr.split "_" b.
Proof. apply split_app_sep. Qed.

Lemma app_assoc_string (a b d : string) : (a +:+ b) +:+ d = a +:+ b +:+ d.
Proof. induction a as [|x a IH]; [done | exact (f_equal (String x) IH)]. Qed.

Lemma key_of_eq (e : entity) (i : identifier) :
  key_of e i =
    match e with
    | Journal => id_collection i +:+ "_" +:+ id_code i
    | _ => id_collection i +:+ "_" +:+ id_code i +:+ "_"
             +:+ PyStr.remove_char "-" (id_processing_date i)
    end.
Proof. by destruct e. Qed.

(** The keys the loaders build are taken apart again by [run]
    ([item.split('_')], then [item[0]] and [item[1]]).  For an identifier
    whose collection has no underscore: when the code has none either, the
    two pieces are the collection and the code; when the code has one, the
    second piece is only the part of the code before its first
    underscore. *)
Theorem key_round_trip (e : entity) (i : identifier) :
  has_char "_" (id_collection i) = false →
  (has_char "_" (id_code i) = false →
     key_parts (key_of e i) = Some (id_collection i, id_code i)) ∧
  (∀ a b, id_code i = a +:+ "_" +:+ b → has_char "_" a = false →
     key_parts (key_of e i) = Some (id_collection i, a)).
Proof.
  intros Hcoll. split.
  - intros Hcode. unfold key_parts. rewrite key_of_eq.
    destruct e; rewrite (split_underscore _ _ Hcoll).
    + by rewrite (split_underscore _ _ Hcode).
    + by rewrite (split_no_sep _ _ Hcode).
    + by rewrite (split_underscore _ _ Hcode).
  - intros a b Hab Ha. unfold key_parts. rewrite key_of_eq, Hab.
    destruct e; rewrite (split_underscore _ _ Hcoll).
    + by rewrite !app_assoc_string, (split_underscore _ _ Ha).
    + by rewrite (split_underscore _ _ Ha).
    + by rewrite !app_assoc_string, (split_underscore _ _ Ha).
Qed.

Lemma key_round_trip_example :
  key_parts (key_of Document (ident "S0034-89101999000100001" "2020-01-31"))
    = Some ("scl", "S0034-89101999000100001") ∧
  key_parts (key_of Journal
               {| id_collection := "scl"; id_code := "rev_saude";
                  id_processing_date := "" |})
    = Some ("scl", "rev").
Proof.
  split.
  - apply (key_round_trip Document (ident "S0034-89101999000100001" "2020-01-31"));
      reflexivity.
  - apply (key_round_trip Journal
             {| id_collection := "scl"; id_code := "rev_saude";
                id_processing_date := "" |}) with (b := "saude"); reflexivity.
Defined.

(** ** The remote loaders, continued *)

Lemma load_ids_result (w : world) (e : entity) (c : string)
    (listing : option string → list identifier) (issns : list (option string)) :
  (∀ h issn, rc_list w h e c issn = (listing issn, None)) →
  ∀ pids h,
    (load_ids w e c issns pids h).2 =
      Ok (pids ++ (issn ← issns; key_of e <$> listing issn)).
Proof.
  intros Hpure. induction issns as [|issn issns IH]; intros pids h.
  - simpl. by rewrite app_nil_r.
  - cbn [load_ids]. unfold mbind at 1 2, M_bind, list_query, emit.
    cbn [fst snd]. rewrite Hpure. cbn [fst snd].
    by rewrite IH, <- app_assoc.
Qed.

(** When every listing of the catalog delivers its items without an
    exception, and the items it delivers for an ISSN do not depend on what
    happened before, a loader returns the keys of the items listed, for each
    ISSN of the filter in turn (for the single unfiltered listing when the
    filter is empty), in the order the catalog lists them. *)
Theorem load_articlemeta_ids_result (w : world) (e : entity) (c : string)
    (listing : option string → list identifier) (issns : list string)
    (h : list event) :
  (∀ h0 issn, rc_list w h0 e c issn = (listing issn, None)) →
  (load_articlemeta_ids w e c issns h).2 =
    Ok (issn ← issns_or_none issns; key_of e <$> listing issn).
Proof.
  intros Hpure. unfold load_articlemeta_ids, mbind at 1, M_bind, log, emit.
  cbn [fst snd]. by rewrite (load_ids_result w e c listing _ Hpure).
Qed.

Lemma load_articlemeta_ids_result_example :
  let listing := λ (e : entity) (issn : option string),
    match issn with
    | Some "0032-281X" => [ident "0032-281X20020003" "2020-01-31"]
    | _ => []
    end in
  (load_articlemeta_ids
     (world_of listing (λ _, []) (λ _ _ _, Ok None) (λ _ _, Ok ()) (λ _ _ _, Ok ()))
     Issue "scl" ["0034-8910"; "0032-281X"] []).2
  = Ok ["scl_0032-281X20020003_20200131"].
Proof.
  intros listing.
  by rewrite (load_articlemeta_ids_result _ Issue "scl" (listing Issue)).
Defined.

(** ** The removal loop *)

(** When the only exception the catalog raises on a [delete] call is
    [UnauthorizedAccess], the removal loop goes through the whole list: it
    returns, and it has made one call per key, in order. *)
Theorem removal_survives_unauthorized (w : world) (e : entity)
    (items : list string) (h : list event) :
  Forall (λ key, is_Some (key_parts key)) items →
  (∀ h0 code c ex, rc_delete w h0 e code c = Raise ex → ex = UnauthorizedAccess) →
  ∃ h' ds,
    remove_items w e items h = (h', Ok ()) ∧
    deletes e h' = deletes e h ++ ds ∧
    Forall2 (λ key d, key_parts key = Some (d.2, d.1)) items ds.
Proof.
  intros Hkeys Hexn. revert h.
  induction Hkeys as [|key rest [[c code] Hkey] _ IH]; intros h.
  - exists h, []. by rewrite app_nil_r.
  - cbn [remove_items]. pose proof Hkey as Hparts. unfold key_parts in Hkey.
    destruct (PyStr.split "_" key) as [|c' [|code' more]]; try done.
    injection Hkey as -> ->.
    unfold mbind, M_bind, delete_remote, log, emit. cbn [fst snd].
    assert (Hstep : ∀ h2,
      deletes e h2 = deletes e h ++ [(code, c)] →
      ∃ h' ds,
        remove_items w e rest h2 = (h', Ok ()) ∧
        deletes e h' = deletes e h ++ ds ∧
        Forall2 (λ key d, key_parts key = Some (d.2, d.1)) (key :: rest) ds).
    { intros h2 Hh2. destruct (IH h2) as (h' & ds & Hrun & Hds & Hall).
      exists h', ((code, c) :: ds). split; [done|]. split.
      - by rewrite Hds, Hh2, <- app_assoc.
      - by constructor. }
    assert (Hh1 : deletes e (h ++ [Deleted e code c (rc_delete w h e code c)])
                  = deletes e h ++ [(code, c)]).
    { unfold deletes. rewrite omap_app. simpl. by rewrite decide_True. }
    destruct (rc_delete w h e code c) as [[]|ex] eqn:Hdel; cbn [fst snd].
    + by apply Hstep.
    + pose proof (Hexn _ _ _ _ Hdel) as ->. apply Hstep.
      unfold deletes in *. by rewrite omap_app, Hh1, app_nil_r.
Qed.

(** A token without the right to delete: both keys get their call. *)
Lemma removal_survives_unauthorized_example :
  ∃ h' ds,
    remove_items
      (world_of (λ _ _, []) (λ _, []) (λ _ _ _, Ok None) (λ _ _, Ok ())
         (λ _ _ _, Raise UnauthorizedAccess))
      Journal ["scl_0001-0001"; "scl_0001-0002"] [] = (h', Ok ()) ∧
    deletes Journal h' = deletes Journal [] ++ ds ∧
    Forall2 (λ key d, key_parts key = Some (d.2, d.1))
      ["scl_0001-0001"; "scl_0001-0002"] ds.
Proof.
  apply removal_survives_unauthorized.
  - repeat constructor; by eexists.
  - intros h0 code c ex. simpl. congruence.
Defined.

(** ** The scan, continued *)

Lemma yields_cons_log (lvl : level) (fmt : string) (args : list string)
    (evs : list event) :
  yields (Log lvl fmt args :: evs) = yields evs.
Proof. done. Qed.

(** When neither [prepare_record] nor the ISSN check raises on any record
    of an ISO file, the scan of the file reaches its end, and the pairs it
    yields are, in the order of the file, the normalised records that have
    a PID and pass the ISSN check, each paired with the name of the
    database. *)
Theorem scan_records_yields (dt : datetime) (c coll isofile : string)
    (issns : list string) (records : list record) (ndx : nat) :
  Forall (scannable dt c issns) records →
  (scan_records dt c coll isofile issns ndx records).2 = None ∧
  yields (scan_records dt c coll isofile issns ndx records).1
    = (λ r, (coll, r)) <$> omap (kept dt c issns) records.
Proof.
  intros Hall. revert ndx. induction Hall as [|r rest Hr _ IH]; intros ndx.
  - done.
  - cbn [scan_records]. destruct (IH (S ndx)) as [Hst Hys].
    destruct (scan_records dt c coll isofile issns (S ndx) rest) as [evs st].
    cbn [fst snd] in Hst, Hys. subst st.
    change (omap (kept dt c issns) (r :: rest))
      with (match kept dt c issns r with
            | Some y => y :: omap (kept dt c issns) rest
            | None => omap (kept dt c issns) rest
            end).
    unfold scannable in Hr. unfold kept at 1.
    destruct (prepare_record dt c r) as [r1 [[out|]|e]];
      cbn [fst snd] in *; [| |done].
    + destruct Hr as [b Hb]. rewrite Hb.
      destruct b; cbn [fst snd]; (split; [reflexivity|]);
        unfold reading_log; rewrite yields_cons_log; [exact Hys|].
      change (yields ([Yield coll out] ++ evs)) with ((coll, out) :: yields evs).
      by rewrite Hys.
    + split; [done|]. unfold reading_log. rewrite yields_cons_log. exact Hys.
Qed.

Lemma scannable_dropped (dt : datetime) (c : string) (issns : list string)
    (r : record) :
  (prepare_record dt c r).2 = Ok None → scannable dt c issns r.
Proof. unfold scannable. by intros ->. Qed.

Lemma scannable_checked (dt : datetime) (c : string) (issns : list string)
    (r out : record) (b : bool) :
  (prepare_record dt c r).2 = Ok (Some out) →
  filtered_out issns out = Ok b →
  scannable dt c issns r.
Proof. unfold scannable. intros -> Hb. by exists b. Qed.

(** A journal, a record without PID and a second journal, filtered on the
    ISSN of the second. *)
Lemma scan_records_yields_example :
  (scan_records (datetime_on "2020-01-31") "scl" "journals" "title.iso"
     ["0034-8910"] 0
     [ {[ "400" := field "0032-281X" ]}; {[ "100" := field "Revista" ]};
       {[ "400" := field "0034-8910" ]} ]).2 = None ∧
  (λ p, (p.1, p.2 !! "code")) <$>
    yields (scan_records (datetime_on "2020-01-31") "scl" "journals" "title.iso"
              ["0034-8910"] 0
              [ {[ "400" := field "0032-281X" ]}; {[ "100" := field "Revista" ]};
                {[ "400" := field "0034-8910" ]} ]).1
  = [("journals", Some (PStr "0034-8910"))].
Proof.
  destruct (scan_records_yields (datetime_on "2020-01-31") "scl" "journals"
              "title.iso" ["0034-8910"]
              [ {[ "400" := field "0032-281X" ]}; {[ "100" := field "Revista" ]};
                {[ "400" := field "0034-8910" ]} ] 0) as [Hend Hys].
  - apply Forall_cons_2.
    { apply scannable_checked with
        (out := (prepare_record (datetime_on "2020-01-31") "scl"
                   {[ "400" := field "0032-281X" ]}).1) (b := true); by_evaluation. }
    apply Forall_cons_2; [apply scannable_dropped; by_evaluation|].
    apply Forall_cons_2; [|apply Forall_nil_2].
    apply scannable_checked with
      (out := (prepare_record (datetime_on "2020-01-31") "scl"
                 {[ "400" := field "0034-8910" ]}).1) (b := false); by_evaluation.
  - split; [exact Hend|]. rewrite Hys. by_evaluation.
Defined.

(** ** A run that stops before the executor *)


Lemma load_articlemeta_ids_returns (w : world) (e : entity) (c : string)
    (issns : list string) (h : list event) :
  (∀ h0 issn, (rc_list w h0 e c issn).2 = None) →
  ∃ h' ids, load_articlemeta_ids w e c issns h = (h', Ok ids).
Proof.
  intros Hret.
  unfold load_articlemeta_ids, mbind, M_bind, log, emit. cbn [fst snd].
  generalize (h ++ [Log INFO (loading_fmt e) []]). generalize (@nil string).
  induction (issns_or_none issns) as [|issn l IH]; intros pids h0.
  - by eexists _, _.
  - cbn [load_ids]. unfold mbind, M_bind, list_query, emit. cbn [fst snd].
    rewrite Hret. apply IH.
Qed.

(** The first steps of [run_plan]: the four log lines, down to the call
    of the first loader. *)
Ltac run_plan_loaders h0 :=
  unfold run_plan, load_articlemeta_documents_ids, load_articlemeta_issues_ids,
    load_articlemeta_journals_ids;
  unfold mbind at 1 2 3 4, M_bind at 1 2 3 4, log, emit; cbn [fst snd];
  unfold mbind at 1, M_bind at 1;
  match goal with
  | |- context [load_articlemeta_ids _ Document _ _ ?h] => set (h0 := h)
  end.




(** ** What the executor never does *)

Section extends_by.
Context {B C : Type} (f : event → option B) (R : C → B → Prop) (items : list C).

Lemma extends_by_quiet {A : Type} (m : M A) : quiet f m → extends_by f R items m.
Proof.
  intros Hm h. exists 0, []. rewrite Hm, app_nil_r. split; [done|].
  rewrite take_0. constructor.
Qed.

Lemma extends_by_bind_l {A D : Type} (m : M A) (k : A → M D) :
  quiet f m → (∀ a, extends_by f R items (k a)) →
  extends_by f R items (m ≫= k).
Proof.
  intros Hm Hk h. unfold mbind, M_bind. specialize (Hm h).
  destruct (m h) as [h1 [a|e]]; simpl in *.
  - destruct (Hk a h1) as (n & bs & Hbs & Hall). exists n, bs. by rewrite Hbs, Hm.
  - exists 0, []. rewrite Hm, app_nil_r. split; [done|]. rewrite take_0. constructor.
Qed.

Lemma extends_by_bind_r {A D : Type} (m : M A) (k : A → M D) :
  extends_by f R items m → (∀ a, quiet f (k a)) →
  extends_by f R items (m ≫= k).
Proof.
  intros Hm Hk h. unfold mbind, M_bind.
  destruct (Hm h) as (n & bs & Hbs & Hall).
  destruct (m h) as [h1 [a|e]]; simpl in *.
  - exists n, bs. by rewrite Hk, Hbs.
  - by exists n, bs.
Qed.
End extends_by.

Lemma extends_by_cons {A B C : Type} (f : event → option B) (R : C → B → Prop)
    (item : C) (items : list C) (b : B) (m : M A) (h0 h : list event) :
  R item b → omap f h = omap f h0 ++ [b] →
  (∃ n bs, omap f (m h).1 = omap f h ++ bs ∧ Forall2 R (take n items) bs) →
  ∃ n bs, omap f (m h).1 = omap f h0 ++ bs ∧ Forall2 R (take n (item :: items)) bs.
Proof.
  intros HR Hh (n & bs & Hbs & Hall). exists (S n), (b :: bs). split.
  - by rewrite Hbs, Hh, <- app_assoc.
  - simpl. by constructor.
Qed.

Lemma remove_items_extends (w : world) (e : entity) (items : list string) :
  extends_by (delete_call e) (λ key d, key_parts key = Some (d.2, d.1)) items
    (remove_items w e items).
Proof.
  induction items as [|key rest IH]; intros h.
  - exists 0, []. by rewrite app_nil_r.
  - cbn [remove_items]. pose proof (eq_refl (key_parts key)) as Hparts.
    unfold key_parts at 2 in Hparts.
    destruct (PyStr.split "_" key) as [|c [|code more]];
      try (exists 0, []; rewrite app_nil_r; split; [done|constructor]).
    unfold mbind, M_bind, delete_remote, log, emit. cbn [fst snd].
    assert (Hh1 : omap (delete_call e) (h ++ [Deleted e code c (rc_delete w h e code c)])
                  = omap (delete_call e) h ++ [(code, c)]).
    { rewrite omap_app. simpl. by rewrite decide_True. }
    destruct (rc_delete w h e code c) as [[]|ex]; cbn [fst snd].
    + apply extends_by_cons with (b := (code, c)); [exact Hparts|exact Hh1|apply IH].
    + destruct ex; cbn [fst snd];
        try (exists 1, [(code, c)]; split; [exact Hh1|]; cbn [take];
             rewrite take_0; apply Forall2_cons_2; [exact Hparts|constructor]).
      apply extends_by_cons with (b := (code, c)); [exact Hparts| |apply IH].
      by rewrite omap_app, Hh1, app_nil_r.
Qed.

Lemma remove_phase_extends (w : world) (e : entity) (items : list string) :
  extends_by (delete_call e) (λ key d, key_parts key = Some (d.2, d.1)) items
    (remove_phase w e items).
Proof.
  unfold remove_phase. apply extends_by_bind_l; [by apply quiet_log|]. intros _.
  case_decide.
  - apply extends_by_quiet. by apply quiet_log.
  - apply remove_items_extends.
Qed.

Lemma remove_phase_quiet_other (w : world) (e e' : entity) (items : list string) :
  e' ≠ e → quiet (delete_call e) (remove_phase w e' items).
Proof.
  intros Hne. apply remove_phase_quiet; [done|].
  intros. by apply delete_call_other.
Qed.

(** Whatever the collaborators answer, and whether the executor returns or
    raises, the [delete] calls it makes for an entity type are for the keys
    at the head of the to-remove list of that type, one call per key, in
    order, with [item[1]] and [item[0]] of the key: nothing is deleted that
    the plan does not name, and no key is deleted twice. *)
Theorem deletes_only_planned (w : world) (p : plan) (e : entity) (h : list event) :
  ∃ n ds,
    deletes e (execute w p h).1 = deletes e h ++ ds ∧
    Forall2 (λ key d, key_parts key = Some (d.2, d.1)) (take n (to_remove p e)) ds.
Proof.
  revert h. change (extends_by (delete_call e)
                      (λ key d, key_parts key = Some (d.2, d.1))
                      (to_remove p e) (execute w p)).
  assert (Hadd : ∀ e', quiet (delete_call e) (add_phase w e' (to_add p e')))
    by (intros; by apply add_phase_quiet).
  assert (Hlog : ∀ lvl fmt args, quiet (delete_call e) (log lvl fmt args))
    by (intros; by apply quiet_log).
  unfold execute. destruct e.
  - apply extends_by_bind_l; [apply Hadd|intros _].
    apply extends_by_bind_r; [apply remove_phase_extends|intros _].
    repeat (apply quiet_bind;
            [first [apply Hadd | by apply remove_phase_quiet_other]|intros _]).
    apply Hlog.
  - apply extends_by_bind_l; [apply Hadd|intros _].
    apply extends_by_bind_l; [by apply remove_phase_quiet_other|intros _].
    apply extends_by_bind_l; [apply Hadd|intros _].
    apply extends_by_bind_r; [apply remove_phase_extends|intros _].
    repeat (apply quiet_bind;
            [first [apply Hadd | by apply remove_phase_quiet_other]|intros _]).
    apply Hlog.
  - apply extends_by_bind_l; [apply Hadd|intros _].
    apply extends_by_bind_l; [by apply remove_phase_quiet_other|intros _].
    apply extends_by_bind_l; [apply Hadd|intros _].
    apply extends_by_bind_l; [by apply remove_phase_quiet_other|intros _].
    apply extends_by_bind_l; [apply Hadd|intros _].
    apply extends_by_bind_r; [apply remove_phase_extends|intros _].
    apply Hlog.
Qed.

Lemma add_items_extends (w : world) (e : entity) (total : nat) (items : list string) :
  ∀ ndx, extends_by (load_call e) (λ key l, key_parts key = Some l) items
           (add_items w e total ndx items).
Proof.
  induction items as [|key rest IH]; intros ndx h.
  - exists 0, []. by rewrite app_nil_r.
  - cbn [add_items]. pose proof (eq_refl (key_parts key)) as Hparts.
    unfold key_parts at 2 in Hparts.
    destruct (PyStr.split "_" key) as [|c [|code more]];
      try (exists 0, []; rewrite app_nil_r; split; [done|constructor]).
    unfold mbind, M_bind, load, add, log, emit. cbn [fst snd].
    assert (Hh1 : ∀ res, omap (load_call e) (h ++ [Loaded e c code res])
                         = omap (load_call e) h ++ [(c, code)]).
    { intros res. rewrite omap_app. simpl. by rewrite decide_True. }
    assert (Hquiet : ∀ h1 ev, load_call e ev = None →
              omap (load_call e) (h1 ++ [ev]) = omap (load_call e) h1).
    { intros h1 ev Hev. by apply quiet_step. }
    destruct (ctrl_load w h e c code) as [[meta|]|ex]; cbn [fst snd].
    + destruct (rc_add w _ e meta) as [[]|ex]; cbn [fst snd].
      * apply extends_by_cons with (b := (c, code)); [exact Hparts| |apply IH].
        do 2 (rewrite Hquiet by done). apply Hh1.
      * destruct ex; unfold raise; cbn [fst snd];
          try (exists 1, [(c, code)]; split;
               [rewrite Hquiet by done; apply Hh1
               |cbn [take]; rewrite take_0;
                apply Forall2_cons_2; [exact Hparts|constructor]]).
        apply extends_by_cons with (b := (c, code)); [exact Hparts| |apply IH].
        do 2 (rewrite Hquiet by done). apply Hh1.
    + apply extends_by_cons with (b := (c, code)); [exact Hparts| |apply IH].
      rewrite Hquiet by done. apply Hh1.
    + apply extends_by_cons with (b := (c, code)); [exact Hparts| |apply IH].
      rewrite Hquiet by done. apply Hh1.
Qed.

Lemma add_phase_extends (w : world) (e : entity) (new : list string) :
  extends_by (load_call e) (λ key l, key_parts key = Some l) new (add_phase w e new).
Proof.
  unfold add_phase. apply extends_by_bind_l; [by apply quiet_log|]. intros _.
  apply add_items_extends.
Qed.

Lemma load_call_other (e e' : entity) (c code : string)
    (res : result (option string)) :
  e' ≠ e → load_call e (Loaded e' c code res) = None.
Proof. intros. simpl. by rewrite decide_False. Qed.

(** Whatever the collaborators answer, and whether the executor returns or
    raises, the [load] calls it makes for an entity type are for the keys
    at the head of the to-add list of that type, one call per key, in order,
    with [item[0]] and [item[1]] of the key: a failed load is not tried
    again, and nothing is loaded that the plan does not name. *)
Theorem loads_only_planned (w : world) (p : plan) (e : entity) (h : list event) :
  ∃ n ls,
    loads e (execute w p h).1 = loads e h ++ ls ∧
    Forall2 (λ key l, key_parts key = Some l) (take n (to_add p e)) ls.
Proof.
  revert h. change (extends_by (load_call e) (λ key l, key_parts key = Some l)
                      (to_add p e) (execute w p)).
  assert (Hrem : ∀ e', quiet (load_call e) (remove_phase w e' (to_remove p e')))
    by (intros; by apply remove_phase_quiet).
  assert (Hadd : ∀ e', e' ≠ e → quiet (load_call e) (add_phase w e' (to_add p e'))).
  { intros e' Hne. apply add_phase_quiet; [done| |done].
    intros. by apply load_call_other. }
  assert (Hlog : ∀ lvl fmt args, quiet (load_call e) (log lvl fmt args))
    by (intros; by apply quiet_log).
  unfold execute. destruct e.
  - apply extends_by_bind_r; [apply add_phase_extends|intros _].
    repeat (apply quiet_bind; [first [apply Hrem | by apply Hadd]|intros _]).
    apply Hlog.
  - apply extends_by_bind_l; [by apply Hadd|intros _].
    apply extends_by_bind_l; [apply Hrem|intros _].
    apply extends_by_bind_r; [apply add_phase_extends|intros _].
    repeat (apply quiet_bind; [first [apply Hrem | by apply Hadd]|intros _]).
    apply Hlog.
  - apply extends_by_bind_l; [by apply Hadd|intros _].
    apply extends_by_bind_l; [apply Hrem|intros _].
    apply extends_by_bind_l; [by apply Hadd|intros _].
    apply extends_by_bind_l; [apply Hrem|intros _].
    apply extends_by_bind_r; [apply add_phase_extends|intros _].
    repeat (apply quiet_bind; [first [apply Hrem | by apply Hadd]|intros _]).
    apply Hlog.
Qed.

Lemma balanced_quiet {A : Type} (e : entity) (m : M A) :
  quiet (load_payload e) m → quiet (add_call e) m → balanced e m.
Proof.
  intros Hp Ha h. exists []. unfold payloads, adds.
  by rewrite Hp, Ha, !app_nil_r.
Qed.

Lemma balanced_bind {A D : Type} (e : entity) (m : M A) (k : A → M D) :
  balanced e m → (∀ a, balanced e (k a)) → balanced e (m ≫= k).
Proof.
  intros Hm Hk h. unfold mbind, M_bind.
  destruct (Hm h) as (ps & Hp & Ha).
  destruct (m h) as [h1 [a|ex]]; simpl in *; [|by exists ps].
  destruct (Hk a h1) as (ps' & Hp' & Ha'). exists (ps ++ ps').
  by rewrite Hp', Ha', Hp, Ha, <- !app_assoc.
Qed.

Lemma balanced_log {e : entity} (lvl : level) (fmt : string) (args : list string) :
  balanced e (log lvl fmt args).
Proof. apply balanced_quiet; by apply quiet_log. Qed.

Lemma add_items_balanced (w : world) (e : entity) (total : nat) (items : list string) :
  ∀ ndx, balanced e (add_items w e total ndx items).
Proof.
  induction items as [|key rest IH]; intros ndx h.
  - exists []. by rewrite !app_nil_r.
  - cbn [add_items].
    destruct (PyStr.split "_" key) as [|c [|code more]];
      try (exists []; by rewrite !app_nil_r).
    unfold mbind, M_bind, load, add, log, emit, raise. cbn [fst snd].
    assert (Hstep : ∀ h2 ps0,
      payloads e h2 = payloads e h ++ ps0 →
      adds e h2 = adds e h ++ ps0 →
      ∃ ps, payloads e (add_items w e total (S ndx) rest h2).1 = payloads e h ++ ps ∧
            adds e (add_items w e total (S ndx) rest h2).1 = adds e h ++ ps).
    { intros h2 ps0 Hp Ha. destruct (IH (S ndx) h2) as (ps & Hp' & Ha').
      exists (ps0 ++ ps). by rewrite Hp', Ha', Hp, Ha, <- !app_assoc. }
    destruct (ctrl_load w h e c code) as [[meta|]|ex]; cbn [fst snd].
    + destruct (rc_add w _ e meta) as [[]|ex]; cbn [fst snd].
      * apply (Hstep _ [meta]); unfold payloads, adds;
          rewrite !omap_app; simpl; rewrite ?decide_True by done;
          by rewrite ?app_nil_r, <- ?app_assoc.
      * destruct ex; cbn [fst snd];
          try (exists [meta]; unfold payloads, adds;
               rewrite !omap_app; simpl; rewrite ?decide_True by done;
               by rewrite ?app_nil_r).
        apply (Hstep _ [meta]); unfold payloads, adds;
          rewrite !omap_app; simpl; rewrite ?decide_True by done;
          by rewrite ?app_nil_r, <- ?app_assoc.
    + apply (Hstep _ []); unfold payloads, adds;
        rewrite !omap_app; simpl; by rewrite ?app_nil_r.
    + apply (Hstep _ []); unfold payloads, adds;
        rewrite !omap_app; simpl; by rewrite ?app_nil_r.
Qed.

Lemma load_payload_other (e e' : entity) (c code : string)
    (res : result (option string)) :
  e' ≠ e → load_payload e (Loaded e' c code res) = None.
Proof. intros. simpl. destruct res as [[meta|]|ex]; by rewrite ?decide_False. Qed.

Lemma add_call_other (e e' : entity) (meta : string) (res : result unit) :
  e' ≠ e → add_call e (Added e' meta res) = None.
Proof. intros. simpl. by rewrite decide_False. Qed.

(** Whatever the collaborators answer, and whether the executor returns or
    raises, the payloads it submits for an entity type are exactly the
    payloads its [load] calls of that type returned, in the same order:
    every loaded payload is submitted once, and nothing else is. *)
Theorem adds_match_payloads (w : world) (p : plan) (e : entity) (h : list event) :
  ∃ ps,
    payloads e (execute w p h).1 = payloads e h ++ ps ∧
    adds e (execute w p h).1 = adds e h ++ ps.
Proof.
  revert h. change (balanced e (execute w p)).
  assert (Hrem : ∀ e', balanced e (remove_phase w e' (to_remove p e'))).
  { intros e'. apply balanced_quiet; by apply remove_phase_quiet. }
  assert (Hadd : ∀ e', balanced e (add_phase w e' (to_add p e'))).
  { intros e'. destruct (decide (e' = e)) as [->|Hne].
    - unfold add_phase. apply balanced_bind; [apply balanced_log|]. intros _.
      apply add_items_balanced.
    - apply balanced_quiet; apply add_phase_quiet; try done; intros;
        by first [apply load_payload_other | apply add_call_other]. }
  unfold execute.
  repeat (apply balanced_bind; [first [apply Hadd | apply Hrem]|intros _]).
  apply balanced_log.
Qed.

(** ** The listings of a run *)

Lemma execute_quiet {B : Type} (f : event → option B) (w : world) (p : plan) :
  (∀ lvl fmt args, f (Log lvl fmt args) = None) →
  (∀ e c code res, f (Loaded e c code res) = None) →
  (∀ e meta res, f (Added e meta res) = None) →
  (∀ e code c res, f (Deleted e code c res) = None) →
  quiet f (execute w p).
Proof.
  intros. unfold execute.
  repeat (apply quiet_bind;
          [first [by apply add_phase_quiet | by apply remove_phase_quiet]|intros _]).
  by apply quiet_log.
Qed.

Lemma load_articlemeta_ids_cases (w : world) (e : entity) (c : string)
    (issns : list string) (h : list event) :
  (∃ h' ids, load_articlemeta_ids w e c issns h = (h', Ok ids) ∧
     queries h' = queries h ++ ((λ issn, (e, c, issn)) <$> issns_or_none issns)) ∨
  (∃ h' ex, load_articlemeta_ids w e c issns h = (h', Raise ex) ∧
     queries h' `prefix_of`
       queries h ++ ((λ issn, (e, c, issn)) <$> issns_or_none issns)).
Proof.
  destruct (load_articlemeta_ids w e c issns h) as [h' [ids|ex]] eqn:Hload.
  - left. exists h', ids. split; [done|]. by eapply load_articlemeta_ids_queries.
  - right. exists h', ex. split; [done|].
    destruct (load_articlemeta_ids_queries_prefix w e c issns h) as [n Hn].
    rewrite Hload in Hn. cbn [fst] in Hn. rewrite Hn, fmap_take.
    apply prefix_app, prefix_take.
Qed.

(** The identifier listings of a run are those of the documents, then of
    the issues, then of the journals, each once per ISSN of the filter (once
    without ISSN when there is no filter).  A run in which no listing raises
    makes all of them, however it ends afterwards; a run that a listing ends
    makes the first of them, up to the listing that raised.  The listings
    come before the scan, and nothing later in the run lists again. *)
Theorem run_queries (dt : datetime) (src : isis) (w : world) (c : string)
    (issns : list string) :
  let listings :=
    ((λ issn, (Document, c, issn)) <$> issns_or_none issns)
      ++ ((λ issn, (Issue, c, issn)) <$> issns_or_none issns)
      ++ ((λ issn, (Journal, c, issn)) <$> issns_or_none issns) in
  queries (run dt src w c issns []).1 `prefix_of` listings ∧
  ((∀ h e issn, (rc_list w h e c issn).2 = None) →
   queries (run dt src w c issns []).1 = listings).
Proof.
  intros listings.
  set (f := λ ev, match ev with Listed e c0 issn => Some (e, c0, issn) | _ => None end).
  assert (Hexec : ∀ p, quiet f (execute w p)) by (intros; by apply execute_quiet).
  assert (Hafter : ∀ (k : unit → M plan) h3,
    (∀ u, quiet f (k u)) →
    queries ((write_records dt src c issns ≫= k) h3).1 = queries h3).
  { intros k h3 Hk.
    apply (quiet_bind f (write_records dt src c issns) k); [|done].
    by apply write_records_quiet. }
  assert (Hlegacy : ∀ docs iss jou (u : unit),
    quiet f (legacy_ids w Document ≫= λ legacy_documents,
             legacy_ids w Issue ≫= λ legacy_issues,
             legacy_ids w Journal ≫= λ legacy_journals,
             mret (diff
               (λ e, match e with
                     | Document => legacy_documents
                     | Issue => legacy_issues
                     | Journal => legacy_journals
                     end)
               (λ e, match e with
                     | Document => list_to_set docs
                     | Issue => list_to_set iss
                     | Journal => list_to_set jou
                     end)))).
  { intros docs iss jou _.
    repeat (apply quiet_bind; [by intros h|intros ?]). apply quiet_ret. }
  assert (Hplan : queries (run_plan dt src w c issns []).1 `prefix_of` listings).
  { run_plan_loaders h0.
    assert (queries h0 = []) as Hh0 by done.
    destruct (load_articlemeta_ids_cases w Document c issns h0)
      as [(h1 & docs & Hr1 & Hd)|(h1 & ex & Hr1 & Hd)];
      rewrite Hr1; rewrite Hh0 in Hd; cbn [app] in Hd;
      [|cbn [fst]; by apply prefix_app_r].
    unfold mbind at 1, M_bind at 1.
    destruct (load_articlemeta_ids_cases w Issue c issns h1)
      as [(h2 & iss & Hr2 & Hi)|(h2 & ex & Hr2 & Hi)];
      rewrite Hr2; rewrite Hd in Hi;
      [|cbn [fst]; unfold listings; rewrite app_assoc; by apply prefix_app_r].
    unfold mbind at 1, M_bind at 1.
    destruct (load_articlemeta_ids_cases w Journal c issns h2)
      as [(h3 & jou & Hr3 & Hj)|(h3 & ex & Hr3 & Hj)];
      rewrite Hr3; rewrite Hi, <- app_assoc in Hj;
      [|done].
    rewrite Hafter by apply Hlegacy. by rewrite Hj. }
  assert (Hall : (∀ h e issn, (rc_list w h e c issn).2 = None) →
                 queries (run_plan dt src w c issns []).1 = listings).
  { intros Hret. run_plan_loaders h0.
    assert (queries h0 = []) as Hh0 by done.
    destruct (load_articlemeta_ids_returns w Document c issns h0 (λ h, Hret h _))
      as (h1 & docs & Hr1).
    pose proof (load_articlemeta_ids_queries _ _ _ _ _ _ _ Hr1) as Hd.
    rewrite Hr1, Hh0 in *. cbn [app] in Hd.
    unfold mbind at 1, M_bind at 1.
    destruct (load_articlemeta_ids_returns w Issue c issns h1 (λ h, Hret h _))
      as (h2 & iss & Hr2).
    pose proof (load_articlemeta_ids_queries _ _ _ _ _ _ _ Hr2) as Hi.
    rewrite Hr2, Hd in *.
    unfold mbind at 1, M_bind at 1.
    destruct (load_articlemeta_ids_returns w Journal c issns h2 (λ h, Hret h _))
      as (h3 & jou & Hr3).
    pose proof (load_articlemeta_ids_queries _ _ _ _ _ _ _ Hr3) as Hj.
    rewrite Hr3, Hi, <- app_assoc in *.
    rewrite Hafter by apply Hlegacy. by rewrite Hj. }
  assert (Hrun : queries (run dt src w c issns []).1
                 = queries (run_plan dt src w c issns []).1).
  { unfold run, mbind, M_bind.
    destruct (run_plan dt src w c issns []) as [h [p|ex]]; [|done].
    cbn [fst]. apply Hexec. }
  rewrite Hrun. by split.
Qed.

(** A run on an empty source with a catalog that lists nothing, filtered
    on two ISSNs: six listings. *)
Lemma run_queries_example :
  queries (run (datetime_on "2020-01-31") (isis_of "scl" [] [] [] [])
             three_documents "scl" ["0032-281X"; "0034-8910"] []).1
  = [(Document, "scl", Some "0032-281X"); (Document, "scl", Some "0034-8910");
     (Issue, "scl", Some "0032-281X"); (Issue, "scl", Some "0034-8910");
     (Journal, "scl", Some "0032-281X"); (Journal, "scl", Some "0034-8910")].
Proof.
  by apply (run_queries (datetime_on "2020-01-31") (isis_of "scl" [] [] [] [])
              three_documents "scl" ["0032-281X"; "0034-8910"]).
Defined.

(** ** Both sides in agreement *)

Lemma add_phase_nil (w : world) (e : entity) (h : list event) :
  add_phase w e [] h = (h ++ [Log INFO (including_fmt e) ["0"]], Ok ()).
Proof. done. Qed.

Lemma remove_phase_nil (w : world) (e : entity) (h : list event) :
  remove_phase w e [] h = (h ++ [Log INFO (removing_fmt e) ["0"]], Ok ()).
Proof.
  unfold remove_phase, mbind, M_bind, log, emit. cbn [fst snd].
  rewrite decide_False; [done|]. simpl. lia.
Qed.

(** When, for every entity type, the legacy side and the catalog hold the
    same identifier keys, the plan is empty and the executor returns without
    a [load], an [add] or a [delete] call: a run on two sides that agree
    changes nothing. *)
Theorem execute_in_sync (w : world) (legacy articlemeta : entity → gset string)
    (h : list event) :
  (∀ e, legacy e = articlemeta e) →
  (∀ e, to_add (diff legacy articlemeta) e = [] ∧
        to_remove (diff legacy articlemeta) e = []) ∧
  (execute w (diff legacy articlemeta) h).2 = Ok () ∧
  ∀ e, loads e (execute w (diff legacy articlemeta) h).1 = loads e h ∧
       adds e (execute w (diff legacy articlemeta) h).1 = adds e h ∧
       deletes e (execute w (diff legacy articlemeta) h).1 = deletes e h.
Proof.
  intros Hsync.
  assert (Hplan : ∀ e, to_add (diff legacy articlemeta) e = [] ∧
                       to_remove (diff legacy articlemeta) e = []).
  { intros e. simpl. rewrite Hsync, difference_diag_L. by rewrite elements_empty. }
  split; [done|].
  assert (Hexec : execute w (diff legacy articlemeta) h =
    (h ++ [Log INFO (including_fmt Document) ["0"]]
       ++ [Log INFO (removing_fmt Document) ["0"]]
       ++ [Log INFO (including_fmt Journal) ["0"]]
       ++ [Log INFO (removing_fmt Journal) ["0"]]
       ++ [Log INFO (including_fmt Issue) ["0"]]
       ++ [Log INFO (removing_fmt Issue) ["0"]]
       ++ [Log INFO "Process Isis2mongo Finished" []], Ok ())).
  { unfold execute.
    destruct (Hplan Document) as [-> ->], (Hplan Journal) as [-> ->],
      (Hplan Issue) as [-> ->].
    unfold mbind, M_bind.
    repeat first [rewrite add_phase_nil | rewrite remove_phase_nil].
    unfold log, emit. by rewrite <- !app_assoc. }
  rewrite Hexec. split; [done|]. intros e. cbn [fst].
  unfold loads, adds, deletes. by rewrite !omap_app, !app_nil_r.
Qed.

(** Three journals on both sides. *)
Lemma execute_in_sync_example :
  let ids : entity → gset string := λ e,
    match e with
    | Journal => {[ "scl_0001-0001"; "scl_0001-0002"; "scl_0001-0003" ]}
    | _ => ∅
    end in
  (execute three_documents (diff ids ids) []).2 = Ok () ∧
  ∀ e, loads e (execute three_documents (diff ids ids) []).1 = loads e [] ∧
       adds e (execute three_documents (diff ids ids) []).1 = adds e [] ∧
       deletes e (execute three_documents (diff ids ids) []).1 = deletes e [].
Proof.
  intros ids. by apply (execute_in_sync three_documents ids ids []).
Defined.
